(** * The note-authoring card and its dictation session

    A shallow embedding of [src/components/new-note-card.tsx].

    The component keeps four pieces of hook state and two refs; the handlers
    it installs on a speech-recognition object share the refs with the click
    handlers.  The browser is a single event loop: every handler runs to
    completion, and the recognition events ([result], [error], [end]) and the
    restart timer arrive as later tasks.  The model therefore has
    - a record for the component instance (hook state and refs),
    - a record for the world around it (the recognition objects the browser
      holds for this page and the timers that are pending),
    - a small state-and-log monad in which each handler is written the way the
      source writes it,
    - one [event] per task the loop can run, and [step] to dispatch it. *)

From stdpp Require Import base decidable option list strings.

Set Default Proof Using "Type".

(** ** Data *)

(** [SpeechRecognitionAlternative]: only [transcript] is read. *)
Record Alternative := { transcript : string }.

(** [SpeechRecognitionResult]: an indexed list of alternatives and the
    [isFinal] mark (an interim result has [isFinal = false]). *)
Record Result := { alternatives : list Alternative; isFinal : bool }.

(** Where a recognition object is in its life: made by the constructor,
    started, asked to stop (its [end] event is still to come), ended. *)
Inductive Status := Created | Active | Stopping | Ended.

#[global] Instance Status_eq_dec : EqDecision Status.
Proof. solve_decision. Defined.

(** A recognition object: the four properties the source assigns, and its
    status.  A handle is the index of the object in [recognitions]. *)
Record Recognition := {
  lang : string;
  continuous : bool;
  maxAlternatives : nat;
  interimResults : bool;
  status : Status
}.

Abbreviation handle := nat (only parsing).

(** The component instance: [useState] cells and [useRef] cells. *)
Record Card := {
  shouldShowOnboarding : bool;
  isRecording : bool;
  content : string;
  selectedFolderId : option string;
  speechRecognitionRef : option handle;
  isRecordingRef : bool
}.

Record World := {
  card : Card;
  recognitions : list Recognition;
  pendingTimers : nat
}.

(** What [window] and [navigator] offer.  [navigator.brave?.isBrave?.()] is
    absent, or a promise that resolves to a boolean, or one that rejects. *)
Inductive BraveProbe := NoBrave | Resolves (isBrave : bool) | Rejects.

Record Env := {
  hasSpeechRecognition : bool;
  hasWebkitSpeechRecognition : bool;
  brave : BraveProbe
}.

(** What a handler does to the outside, in the order it does it.  Writes to
    the two refs are logged as well: the refs are the cells the recognition
    callbacks read when they fire. *)
Inductive Effect :=
| PreventDefault
| OnNoteCreated (text : string) (folderId : option string)
| ToastSuccess (msg : string)
| ToastError (msg : string)
| ToastWarning (msg : string)
| ConsoleError
| UncaughtTypeError
| HandleOpen (nextOpen : bool)
| WriteIsRecordingRef (b : bool)
| WriteSpeechRecognitionRef (h : option handle)
| RecognitionNew (h : handle)
| RecognitionStart (h : handle)
| RecognitionStop (h : handle)
| SetTimeout (ms : nat).

#[global] Instance Effect_eq_dec : EqDecision Effect.
Proof. solve_decision. Defined.

(** ** The handler monad: state passing with a log of effects *)

Definition M (A : Type) : Type := World -> A * World * list Effect.

Definition ret {A} (a : A) : M A := fun w => (a, w, []).

Definition bind {A B} (m : M A) (k : A -> M B) : M B :=
  fun w =>
    let '(a, w1, t1) := m w in
    let '(b, w2, t2) := k a w1 in
    (b, w2, t1 ++ t2).

Declare Scope handler_scope.
Delimit Scope handler_scope with handler.
Notation "x <- m ;; k" := (bind m (fun x => k))
  (at level 100, m at next level, right associativity) : handler_scope.
Notation "m ;; k" := (bind m (fun _ => k))
  (at level 100, right associativity) : handler_scope.
Local Open Scope handler_scope.

Definition exec {A} (m : M A) (w : World) : World := snd (fst (m w)).
Definition log {A} (m : M A) (w : World) : list Effect := snd (m w).

Definition emit (e : Effect) : M unit := fun w => (tt, w, [e]).
Definition gets {A} (f : World -> A) : M A := fun w => (f w, w, []).
Definition modify (f : World -> World) : M unit := fun w => (tt, f w, []).

Definition withCard (f : Card -> Card) (w : World) : World :=
  {| card := f (card w);
     recognitions := recognitions w;
     pendingTimers := pendingTimers w |}.

(** *** The [useState] setters *)

Definition setShouldShowOnboarding (b : bool) : M unit :=
  modify (withCard (fun c =>
    {| shouldShowOnboarding := b;
       isRecording := isRecording c;
       content := content c;
       selectedFolderId := selectedFolderId c;
       speechRecognitionRef := speechRecognitionRef c;
       isRecordingRef := isRecordingRef c |})).

Definition setIsRecording (b : bool) : M unit :=
  modify (withCard (fun c =>
    {| shouldShowOnboarding := shouldShowOnboarding c;
       isRecording := b;
       content := content c;
       selectedFolderId := selectedFolderId c;
       speechRecognitionRef := speechRecognitionRef c;
       isRecordingRef := isRecordingRef c |})).

Definition setContent (s : string) : M unit :=
  modify (withCard (fun c =>
    {| shouldShowOnboarding := shouldShowOnboarding c;
       isRecording := isRecording c;
       content := s;
       selectedFolderId := selectedFolderId c;
       speechRecognitionRef := speechRecognitionRef c;
       isRecordingRef := isRecordingRef c |})).

Definition setSelectedFolderId (f : option string) : M unit :=
  modify (withCard (fun c =>
    {| shouldShowOnboarding := shouldShowOnboarding c;
       isRecording := isRecording c;
       content := content c;
       selectedFolderId := f;
       speechRecognitionRef := speechRecognitionRef c;
       isRecordingRef := isRecordingRef c |})).

(** *** The refs: [ref.current] read and written *)

Definition readSpeechRecognitionRef : M (option handle) :=
  gets (fun w => speechRecognitionRef (card w)).

Definition writeSpeechRecognitionRef (h : option handle) : M unit :=
  modify (withCard (fun c =>
    {| shouldShowOnboarding := shouldShowOnboarding c;
       isRecording := isRecording c;
       content := content c;
       selectedFolderId := selectedFolderId c;
       speechRecognitionRef := h;
       isRecordingRef := isRecordingRef c |})) ;;
  emit (WriteSpeechRecognitionRef h).

Definition readIsRecordingRef : M bool :=
  gets (fun w => isRecordingRef (card w)).

Definition writeIsRecordingRef (b : bool) : M unit :=
  modify (withCard (fun c =>
    {| shouldShowOnboarding := shouldShowOnboarding c;
       isRecording := isRecording c;
       content := content c;
       selectedFolderId := selectedFolderId c;
       speechRecognitionRef := speechRecognitionRef c;
       isRecordingRef := b |})) ;;
  emit (WriteIsRecordingRef b).

(** *** The platform: recognition objects and timers *)

Definition withRecognitions (f : list Recognition -> list Recognition)
    (w : World) : World :=
  {| card := card w;
     recognitions := f (recognitions w);
     pendingTimers := pendingTimers w |}.

Definition withStatus (f : Status -> Status) (r : Recognition) : Recognition :=
  {| lang := lang r;
     continuous := continuous r;
     maxAlternatives := maxAlternatives r;
     interimResults := interimResults r;
     status := f (status r) |}.

(** [new SpeechRecognitionAPI()]: a fresh object with the defaults of the
    interface, at the next free handle. *)
Definition recognitionNew : M handle :=
  h <- gets (fun w => length (recognitions w)) ;;
  modify (withRecognitions (fun l =>
    l ++ [ {| lang := ""; continuous := false; maxAlternatives := 1;
              interimResults := false; status := Created |} ])) ;;
  emit (RecognitionNew h) ;;
  ret h.

Definition setLang (h : handle) (v : string) : M unit :=
  modify (withRecognitions (alter (fun r =>
    {| lang := v; continuous := continuous r;
       maxAlternatives := maxAlternatives r;
       interimResults := interimResults r; status := status r |}) h)).

Definition setContinuous (h : handle) (v : bool) : M unit :=
  modify (withRecognitions (alter (fun r =>
    {| lang := lang r; continuous := v;
       maxAlternatives := maxAlternatives r;
       interimResults := interimResults r; status := status r |}) h)).

Definition setMaxAlternatives (h : handle) (v : nat) : M unit :=
  modify (withRecognitions (alter (fun r =>
    {| lang := lang r; continuous := continuous r;
       maxAlternatives := v;
       interimResults := interimResults r; status := status r |}) h)).

Definition setInterimResults (h : handle) (v : bool) : M unit :=
  modify (withRecognitions (alter (fun r =>
    {| lang := lang r; continuous := continuous r;
       maxAlternatives := maxAlternatives r;
       interimResults := v; status := status r |}) h)).

(** [recognition.start()]: a fresh object begins to listen. *)
Definition started (s : Status) : Status :=
  match s with Created => Active | _ => s end.

Definition recognitionStart (h : handle) : M unit :=
  modify (withRecognitions (alter (withStatus started) h)) ;;
  emit (RecognitionStart h).

(** [recognition.stop()]: a listening object is asked to finish; its [end]
    event comes later.  On an object that is not listening the call does
    nothing. *)
Definition stopRequested (s : Status) : Status :=
  match s with Active => Stopping | _ => s end.

Definition recognitionStop (h : handle) : M unit :=
  modify (withRecognitions (alter (withStatus stopRequested) h)) ;;
  emit (RecognitionStop h).

(** [setTimeout(callback, ms)]: every timer of this component carries the same
    callback, so the pending ones are counted. *)
Definition setTimeout (ms : nat) : M unit :=
  modify (fun w =>
    {| card := card w;
       recognitions := recognitions w;
       pendingTimers := S (pendingTimers w) |}) ;;
  emit (SetTimeout ms).

(** ** The handlers of [NewNoteCard] *)

Definition handleStartEditor : M unit :=
  setShouldShowOnboarding false.

(** [event.target.value] is the argument. *)
Definition handleContentChanged (value : string) : M unit :=
  setContent value ;;
  if decide (value = "") then setShouldShowOnboarding true else ret tt.

Definition handleSaveNote : M unit :=
  emit PreventDefault ;;
  text <- gets (fun w => content (card w)) ;;
  if decide (text = "") then ret tt
  else
    folderId <- gets (fun w => selectedFolderId (card w)) ;;
    emit (OnNoteCreated text folderId) ;;
    setContent "" ;;
    setSelectedFolderId None ;;
    setShouldShowOnboarding true ;;
    emit (ToastSuccess "Nota criada com sucesso!").

(** The reducer of [onresult]: [text.concat(result[0].transcript)].  An
    empty result has no [result[0]], and reading [transcript] of it throws. *)
Definition appendFirst (text : option string) (result : Result) : option string :=
  match text, alternatives result !! 0 with
  | Some t, Some a => Some (t +:+ transcript a)
  | _, _ => None
  end.

Definition transcription (results : list Result) : option string :=
  fold_left appendFirst results (Some "").

Definition onresult (results : list Result) : M unit :=
  match transcription results with
  | Some text => setContent text
  | None => emit UncaughtTypeError
  end.

Definition onerror : M unit :=
  emit ConsoleError ;;
  recording <- readIsRecordingRef ;;
  if negb recording then setIsRecording false else ret tt.

Definition onend : M unit :=
  recording <- readIsRecordingRef ;;
  if negb recording then
    setIsRecording false ;;
    writeSpeechRecognitionRef None
  else
    setTimeout 200.

Definition startRecognition : M unit :=
  current <- readSpeechRecognitionRef ;;
  match current with
  | Some h => recognitionStop h ;; writeSpeechRecognitionRef None
  | None => ret tt
  end ;;
  h <- recognitionNew ;;
  writeSpeechRecognitionRef (Some h) ;;
  setLang h "pt-BR" ;;
  setContinuous h true ;;
  setMaxAlternatives h 1 ;;
  setInterimResults h true ;;
  recognitionStart h.

(** The callback handed to [setTimeout] in [onend]. *)
Definition restartCallback : M unit :=
  recording <- readIsRecordingRef ;;
  if recording then startRecognition else ret tt.

Definition isSpeechRecognitionAPIAvailable (env : Env) : bool :=
  hasSpeechRecognition env || hasWebkitSpeechRecognition env.

(** The [then] callback of the Brave probe runs once the click handler has
    returned; a rejection is swallowed by the empty [catch]. *)
Definition braveAdvisory (env : Env) : M unit :=
  match brave env with
  | Resolves true =>
      emit (ToastWarning
        "O Brave pode bloquear a gravacao por voz. Se falhar, teste no Chrome.")
  | _ => ret tt
  end.

Definition handleStartRecording (env : Env) : M unit :=
  if negb (isSpeechRecognitionAPIAvailable env) then
    emit (ToastError
      "Seu navegador nao suporta a API de gravacao. Use Chrome ou Edge.")
  else
    setIsRecording true ;;
    writeIsRecordingRef true ;;
    setShouldShowOnboarding false ;;
    startRecognition ;;
    braveAdvisory env.

Definition handleStopRecording : M unit :=
  setIsRecording false ;;
  writeIsRecordingRef false ;;
  current <- readSpeechRecognitionRef ;;
  match current with
  | Some h => recognitionStop h ;; writeSpeechRecognitionRef None
  | None => ret tt
  end.

Definition handleDialogOpenChange (nextOpen : bool) : M unit :=
  (if negb nextOpen then
     handleStopRecording ;;
     setContent "" ;;
     setSelectedFolderId None ;;
     setShouldShowOnboarding true
   else ret tt) ;;
  emit (HandleOpen nextOpen).

(** [onChange] of the folder [select]: [e.target.value || null]. *)
Definition handleFolderSelected (value : string) : M unit :=
  setSelectedFolderId (if decide (value = "") then None else Some value).

(** The cleanup the mount effect returns. *)
Definition unmountCleanup : M unit :=
  current <- readSpeechRecognitionRef ;;
  match current with
  | Some h => recognitionStop h ;; writeSpeechRecognitionRef None
  | None => ret tt
  end.

(** ** The event loop *)

Inductive event :=
| ClickStartEditor
| ChangeContent (value : string)
| ClickSave
| ClickStartRecording
| ClickStopRecording
| DialogOpenChange (nextOpen : bool)
| SelectFolder (value : string)
| Unmount
| RecognitionResult (h : handle) (results : list Result)
| RecognitionError (h : handle)
| RecognitionEnd (h : handle)
| TimerFires.

(** The browser delivers events only for an object that listens or is
    finishing. *)
Definition delivering (w : World) (h : handle) : bool :=
  match recognitions w !! h with
  | Some r => bool_decide (status r = Active) || bool_decide (status r = Stopping)
  | None => false
  end.

Definition markEnded (h : handle) : M unit :=
  modify (withRecognitions (alter (withStatus (fun _ => Ended)) h)).

Definition takeTimer : M unit :=
  modify (fun w =>
    {| card := card w;
       recognitions := recognitions w;
       pendingTimers := pred (pendingTimers w) |}).

Definition dispatch (env : Env) (e : event) : M unit :=
  match e with
  | ClickStartEditor => handleStartEditor
  | ChangeContent v => handleContentChanged v
  | ClickSave => handleSaveNote
  | ClickStartRecording => handleStartRecording env
  | ClickStopRecording => handleStopRecording
  | DialogOpenChange b => handleDialogOpenChange b
  | SelectFolder v => handleFolderSelected v
  | Unmount => unmountCleanup
  | RecognitionResult h results =>
      live <- gets (fun w => delivering w h) ;;
      if live then onresult results else ret tt
  | RecognitionError h =>
      live <- gets (fun w => delivering w h) ;;
      if live then onerror else ret tt
  | RecognitionEnd h =>
      live <- gets (fun w => delivering w h) ;;
      if live then markEnded h ;; onend else ret tt
  | TimerFires =>
      n <- gets pendingTimers ;;
      match n with
      | O => ret tt
      | S _ => takeTimer ;; restartCallback
      end
  end.

Definition step (env : Env) (w : World) (e : event) : World :=
  exec (dispatch env e) w.

Definition effects (env : Env) (w : World) (e : event) : list Effect :=
  log (dispatch env e) w.

(** A run of the loop: the final world and everything that was logged. *)
Fixpoint run (env : Env) (es : list event) (w : World) : World * list Effect :=
  match es with
  | [] => (w, [])
  | e :: es' =>
      let '(w', t') := run env es' (step env w e) in
      (w', effects env w e ++ t')
  end.

Definition initialCard : Card :=
  {| shouldShowOnboarding := true;
     isRecording := false;
     content := "";
     selectedFolderId := None;
     speechRecognitionRef := None;
     isRecordingRef := false |}.

Definition initialWorld : World :=
  {| card := initialCard; recognitions := []; pendingTimers := 0 |}.

Inductive reachable (env : Env) : World -> Prop :=
| reachable_initial : reachable env initialWorld
| reachable_step w e : reachable env w -> reachable env (step env w e).

(** ** Reading the session off the component *)

(** The session listens while the recording flag in the ref is up; it is
    stopped when the flag is down, the button shows "not recording" and no
    recognition object is held. *)
Definition listening (w : World) : Prop :=
  isRecordingRef (card w) = true.

Definition stopped (w : World) : Prop :=
  isRecordingRef (card w) = false /\
  isRecording (card w) = false /\
  speechRecognitionRef (card w) = None.

(** A recognition object is live while it listens. *)
Definition liveIn (recs : list Recognition) (h : handle) : Prop :=
  exists r, recs !! h = Some r /\ status r = Active.

Definition live (w : World) (h : handle) : Prop :=
  liveIn (recognitions w) h.

Definition liveCount (w : World) : nat :=
  length (filter (fun r => status r = Active) (recognitions w)).

(** The draft as [handleSaveNote] and the close path leave it. *)
Definition draftReset (w : World) : Prop :=
  content (card w) = "" /\
  selectedFolderId (card w) = None /\
  shouldShowOnboarding (card w) = true.

(** The calls of the creation callback in a log, and the recognition objects
    a log creates. *)
Definition isOnNoteCreated (e : Effect) : bool :=
  match e with OnNoteCreated _ _ => true | _ => false end.

Definition callbackCalls (t : list Effect) : list Effect :=
  filter (fun e => isOnNoteCreated e = true) t.

Definition isRestart (e : Effect) : bool :=
  match e with
  | RecognitionNew _ | RecognitionStart _ | SetTimeout _ => true
  | _ => false
  end.

Definition restarts (t : list Effect) : list Effect :=
  filter (fun e => isRestart e = true) t.

(** In-order concatenation of a list of strings. *)
Definition concatenation (parts : list string) : string :=
  foldr String.app "" parts.

(** The object [startRecognition] leaves at the fresh handle: configured and
    listening. *)
Definition configured : Recognition :=
  {| lang := "pt-BR"; continuous := true; maxAlternatives := 1;
     interimResults := true; status := Active |}.

(** The recognition objects after the "stop what the ref holds" opening that
    [startRecognition], [handleStopRecording] and the unmount cleanup share. *)
Definition released (w : World) : list Recognition :=
  match speechRecognitionRef (card w) with
  | Some h => alter (withStatus stopRequested) h (recognitions w)
  | None => recognitions w
  end.

Definition releaseLog (w : World) : list Effect :=
  match speechRecognitionRef (card w) with
  | Some h => [RecognitionStop h; WriteSpeechRecognitionRef None]
  | None => []
  end.

(** The world once a pending timer has been taken off the queue. *)
Definition timerTaken (w : World) : World :=
  {| card := card w;
     recognitions := recognitions w;
     pendingTimers := pred (pendingTimers w) |}.

(** The tasks that enter [startRecognition]: a click on "start" where the
    capability exists, and a restart timer that finds the flag up. *)
Definition entersStart (env : Env) (w : World) (e : event) : Prop :=
  (e = ClickStartRecording /\ isSpeechRecognitionAPIAvailable env = true) \/
  (e = TimerFires /\ pendingTimers w <> 0 /\ isRecordingRef (card w) = true).

(** What holds of the component between any two tasks of the loop. *)
Record consistent (w : World) : Prop := {
  button_follows_flag : isRecording (card w) = isRecordingRef (card w);
  handle_needs_flag :
    forall h, speechRecognitionRef (card w) = Some h -> isRecordingRef (card w) = true;
  live_is_held :
    forall h, live w h -> speechRecognitionRef (card w) = Some h;
  folder_not_blank : selectedFolderId (card w) <> Some ""
}.

(** Sample data for the examples below. *)
Definition chromeEnv : Env :=
  {| hasSpeechRecognition := false;
     hasWebkitSpeechRecognition := true;
     brave := NoBrave |}.

Definition noSpeechEnv : Env :=
  {| hasSpeechRecognition := false;
     hasWebkitSpeechRecognition := false;
     brave := NoBrave |}.

Definition interim (s : string) : Result :=
  {| alternatives := [ {| transcript := s |} ]; isFinal := false |}.

Definition final (s : string) : Result :=
  {| alternatives := [ {| transcript := s |} ]; isFinal := true |}.

(** ** What the card renders *)

(** The [Folder] interface of the source. *)
Module Folder.
Record t := { id : string; name : string }.
End Folder.

(** The controls of the dialog body that depend on the hook state: the
    onboarding paragraph (with its two buttons) or the textarea, the folder
    [select] below the textarea, and the button at the bottom. *)
Record View := {
  onboardingShown : bool;
  textareaShown : bool;
  textareaValue : string;
  folderSelectShown : bool;
  selectValue : string;
  selectOptions : list string;
  stopButtonShown : bool;
  saveButtonShown : bool
}.

(** [folders && folders.length > 0], for the optional [folders] prop. *)
Definition hasFolders (folders : option (list Folder.t)) : bool :=
  match folders with
  | Some (_ :: _) => true
  | _ => false
  end.

(** [selectedFolderId || ""]: the value the [select] shows. *)
Definition shownFolder (selected : option string) : string :=
  match selected with
  | Some v => if decide (v = "") then "" else v
  | None => ""
  end.

Definition render (folders : option (list Folder.t)) (c : Card) : View :=
  {| onboardingShown := shouldShowOnboarding c;
     textareaShown := negb (shouldShowOnboarding c);
     textareaValue := content c;
     folderSelectShown := negb (shouldShowOnboarding c) && hasFolders folders;
     selectValue := shownFolder (selectedFolderId c);
     selectOptions := "" :: map Folder.id (default [] folders);
     stopButtonShown := isRecording c;
     saveButtonShown := negb (isRecording c) |}.

(** Which task the loop can run next: a click or an edit needs its control to
    be rendered, a recognition event needs an object that delivers, a timer
    needs to be pending.  The dialog can be asked to open or close, and the
    card can be unmounted, at any time. *)
Definition enabled (folders : option (list Folder.t)) (w : World) (e : event) : bool :=
  let v := render folders (card w) in
  match e with
  | ClickStartEditor | ClickStartRecording => onboardingShown v
  | ChangeContent _ => textareaShown v
  | SelectFolder value =>
      folderSelectShown v && bool_decide (value ∈ selectOptions v)
  | ClickSave => saveButtonShown v
  | ClickStopRecording => stopButtonShown v
  | DialogOpenChange _ | Unmount => true
  | RecognitionResult h _ | RecognitionError h | RecognitionEnd h => delivering w h
  | TimerFires => bool_decide (pendingTimers w <> 0)
  end.

(** The worlds a user and the platform can bring about through the rendered
    controls, for a fixed [folders] prop. *)
Inductive uiReachable (env : Env) (folders : option (list Folder.t)) : World -> Prop :=
| uiReachable_initial : uiReachable env folders initialWorld
| uiReachable_step w e :
    uiReachable env folders w -> enabled folders w e = true ->
    uiReachable env folders (step env w e).

(** A folder reference that is absent or names one of the folders in the
    prop by a non-empty id. *)
Definition listed (folders : option (list Folder.t)) (f : option string) : Prop :=
  f = None \/
  exists x, x ∈ default [] folders /\ f = Some (Folder.id x) /\ Folder.id x <> "".

(** The draft: what a save hands over and what the body shows. *)
Definition draftOf (w : World) : string * option string * bool :=
  (content (card w), selectedFolderId (card w), shouldShowOnboarding (card w)).

(** The order in which a recognition object passes through its statuses. *)
Definition rank (s : Status) : nat :=
  match s with Created => 0 | Active => 1 | Stopping => 2 | Ended => 3 end.

Definition isSave (e : event) : bool :=
  match e with ClickSave => true | _ => false end.

Definition isWarning (e : Effect) : bool :=
  match e with ToastWarning _ => true | _ => false end.

Definition isStarted (e : Effect) : option handle :=
  match e with RecognitionStart h => Some h | _ => None end.

Definition sampleFolders : option (list Folder.t) :=
  Some [ {| Folder.id := "f1"; Folder.name := "Trabalho" |};
         {| Folder.id := "f2"; Folder.name := "Casa" |} ].

(** * Properties *)

(** ** Running the monad *)

Lemma exec_bind {A B} (m : M A) (k : A -> M B) w :
  exec (bind m k) w = exec (k (m w).1.1) (exec m w).
Proof.
  unfold exec, bind. destruct (m w) as [[a w1] t1]. simpl.
  by destruct (k a w1) as [[b w2] t2].
Qed.

Lemma log_bind {A B} (m : M A) (k : A -> M B) w :
  log (bind m k) w = log m w ++ log (k (m w).1.1) (exec m w).
Proof.
  unfold log, exec, bind. destruct (m w) as [[a w1] t1]. simpl.
  by destruct (k a w1) as [[b w2] t2].
Qed.

Lemma card_eta (c : Card) :
  {| shouldShowOnboarding := shouldShowOnboarding c;
     isRecording := isRecording c;
     content := content c;
     selectedFolderId := selectedFolderId c;
     speechRecognitionRef := speechRecognitionRef c;
     isRecordingRef := isRecordingRef c |} = c.
Proof. by destruct c. Qed.

Lemma world_eta (w : World) :
  {| card := card w; recognitions := recognitions w;
     pendingTimers := pendingTimers w |} = w.
Proof. by destruct w. Qed.

(** ** Sample runs *)

Example run_start_end_timer :
  let w := (run chromeEnv [ClickStartRecording; RecognitionEnd 0; TimerFires] initialWorld).1 in
  speechRecognitionRef (card w) = Some 1 /\ map status (recognitions w) = [Ended; Active].
Proof. vm_compute. done. Qed.

(** Stop, then start before the [end] event of the first object has come:
    the first object is still finishing while the second listens. *)
Example run_stop_then_start :
  let w := (run chromeEnv [ClickStartRecording; ClickStopRecording; ClickStartRecording]
              initialWorld).1 in
  speechRecognitionRef (card w) = Some 1 /\
  map status (recognitions w) = [Stopping; Active] /\
  liveCount w = 1.
Proof. vm_compute. done. Qed.

(** After a restart the new object reports only what it has heard itself, so
    its first result puts that in the draft in place of the earlier text. *)
Example run_result_after_restart :
  let w := (run chromeEnv
              [ClickStartRecording; RecognitionResult 0 [final "ola mundo"];
               RecognitionEnd 0; TimerFires] initialWorld).1 in
  content (card w) = "ola mundo" /\
  content (card (step chromeEnv w (RecognitionResult 1 [interim "de novo"]))) = "de novo".
Proof. vm_compute. done. Qed.

(** ** Saving *)

Section save.
Variable w : World.

Lemma handleSaveNote_empty :
  content (card w) = "" ->
  handleSaveNote w = (tt, w, [PreventDefault]).
Proof.
  intros Hc. unfold handleSaveNote, bind, emit, gets. simpl.
  rewrite Hc. by rewrite decide_True.
Qed.

Lemma handleSaveNote_filled :
  content (card w) <> "" ->
  handleSaveNote w =
    (tt,
     {| card :=
          {| shouldShowOnboarding := true;
             isRecording := isRecording (card w);
             content := "";
             selectedFolderId := None;
             speechRecognitionRef := speechRecognitionRef (card w);
             isRecordingRef := isRecordingRef (card w) |};
        recognitions := recognitions w;
        pendingTimers := pendingTimers w |},
     [PreventDefault;
      OnNoteCreated (content (card w)) (selectedFolderId (card w));
      ToastSuccess "Nota criada com sucesso!"]).
Proof.
  intros Hc. unfold handleSaveNote, bind, emit, gets. simpl.
  by rewrite decide_False.
Qed.
End save.

(** C4: with a non-empty draft, saving calls the creation callback exactly
    once, with the content and the selected folder, and leaves the draft
    empty, without folder and with the onboarding text showing. *)
Theorem C4_save_hands_over_once_and_resets (env : Env) (w : World) :
  content (card w) <> "" ->
  callbackCalls (effects env w ClickSave) =
    [OnNoteCreated (content (card w)) (selectedFolderId (card w))] /\
  content (card (step env w ClickSave)) = "" /\
  selectedFolderId (card (step env w ClickSave)) = None /\
  shouldShowOnboarding (card (step env w ClickSave)) = true.
Proof.
  intros Hc. unfold effects, step, log, exec, dispatch.
  rewrite handleSaveNote_filled by done. done.
Qed.

Lemma C4_witness :
  let w := step chromeEnv (step chromeEnv initialWorld (ChangeContent "hello world"))
             (SelectFolder "f1") in
  content (card w) <> "" /\
  callbackCalls (effects chromeEnv w ClickSave) = [OnNoteCreated "hello world" (Some "f1")] /\
  content (card (step chromeEnv w ClickSave)) = "" /\
  selectedFolderId (card (step chromeEnv w ClickSave)) = None /\
  shouldShowOnboarding (card (step chromeEnv w ClickSave)) = true.
Proof.
  split; [vm_compute; discriminate|].
  apply (C4_save_hands_over_once_and_resets chromeEnv
           (step chromeEnv (step chromeEnv initialWorld (ChangeContent "hello world"))
              (SelectFolder "f1"))).
  vm_compute; discriminate.
Defined.

(** C5: with an empty draft, saving never calls the creation callback and
    changes nothing. *)
Theorem C5_save_empty_is_noop (env : Env) (w : World) :
  content (card w) = "" ->
  callbackCalls (effects env w ClickSave) = [] /\
  step env w ClickSave = w.
Proof.
  intros Hc. unfold effects, step, log, exec, dispatch.
  rewrite handleSaveNote_empty by done. done.
Qed.

Lemma C5_witness :
  content (card initialWorld) = "" /\
  callbackCalls (effects chromeEnv initialWorld ClickSave) = [] /\
  step chromeEnv initialWorld ClickSave = initialWorld.
Proof.
  split; [reflexivity|].
  apply (C5_save_empty_is_noop chromeEnv initialWorld). reflexivity.
Defined.

(** ** Starting without the capability *)

(** C6: when neither [SpeechRecognition] nor [webkitSpeechRecognition] is in
    [window], the start handler shows the error toast and nothing else
    happens: the world (flags, handle, draft, onboarding, recognition
    objects, timers) is the one before. *)
Theorem C6_start_unsupported_changes_nothing (env : Env) (w : World) :
  isSpeechRecognitionAPIAvailable env = false ->
  step env w ClickStartRecording = w /\
  effects env w ClickStartRecording =
    [ToastError "Seu navegador nao suporta a API de gravacao. Use Chrome ou Edge."].
Proof.
  intros Ha. unfold effects, step, log, exec, dispatch, handleStartRecording.
  rewrite Ha. done.
Qed.

Lemma C6_witness :
  isSpeechRecognitionAPIAvailable noSpeechEnv = false /\
  step noSpeechEnv initialWorld ClickStartRecording = initialWorld /\
  effects noSpeechEnv initialWorld ClickStartRecording =
    [ToastError "Seu navegador nao suporta a API de gravacao. Use Chrome ou Edge."].
Proof.
  split; [reflexivity|].
  apply (C6_start_unsupported_changes_nothing noSpeechEnv initialWorld). reflexivity.
Defined.

(** ** Transcripts *)

Lemma string_app_assoc (a b c : string) : (a +:+ b) +:+ c = a +:+ (b +:+ c).
Proof.
  induction a as [|x a IH]; [done|].
  change (String x ((a +:+ b) +:+ c) = String x (a +:+ (b +:+ c))).
  by rewrite IH.
Qed.

Lemma string_app_nil_r (a : string) : a +:+ "" = a.
Proof.
  induction a as [|x a IH]; [done|].
  change (String x (a +:+ "") = String x a). by rewrite IH.
Qed.

(** The reducer run from any accumulator: the first alternatives are appended
    in the order of the results. *)
Lemma fold_appendFirst (results : list Result) :
  forall (firsts : list Alternative) (acc : string),
    map (fun r => alternatives r !! 0) results = map Some firsts ->
    fold_left appendFirst results (Some acc) =
      Some (acc +:+ concatenation (map transcript firsts)).
Proof.
  induction results as [|r results IH]; intros firsts acc Hf.
  - destruct firsts; [|done]. simpl. by rewrite string_app_nil_r.
  - destruct firsts as [|a firsts]; [done|].
    simpl in Hf. injection Hf as Hr Hrest.
    simpl. rewrite Hr.
    rewrite (IH firsts _ Hrest). by rewrite string_app_assoc.
Qed.

Lemma transcription_firsts (results : list Result) (firsts : list Alternative) :
  map (fun r => alternatives r !! 0) results = map Some firsts ->
  transcription results = Some (concatenation (map transcript firsts)).
Proof.
  intros Hf. unfold transcription. by rewrite (fold_appendFirst _ _ _ Hf).
Qed.

(** A result without alternatives makes the reducer throw, whatever follows. *)
Lemma fold_appendFirst_thrown (results : list Result) :
  fold_left appendFirst results None = None.
Proof. induction results as [|r results IH]; [done|]. simpl. apply IH. Qed.

Lemma onresult_content (results : list Result) (text : string) (w : World) :
  transcription results = Some text ->
  content (card (exec (onresult results) w)) = text /\
  log (onresult results) w = [].
Proof. intros Ht. unfold onresult. by rewrite Ht. Qed.

(** C7: on a result event the draft receives the in-order concatenation of
    the first alternative of every segment the event carries; what an earlier
    event had put in the draft (an interim text for the same segment, say) is
    replaced, not kept in front of the new text. *)
Theorem C7_result_overwrites_with_concatenation
    (env : Env) (w : World) (h : handle)
    (earlier results : list Result) (firsts : list Alternative) :
  delivering w h = true ->
  map (fun r => alternatives r !! 0) results = map Some firsts ->
  content (card (step env w (RecognitionResult h results))) =
    concatenation (map transcript firsts) /\
  content (card (step env (step env w (RecognitionResult h earlier))
                   (RecognitionResult h results))) =
    concatenation (map transcript firsts).
Proof.
  intros Hd Hf.
  pose proof (transcription_firsts _ _ Hf) as Ht.
  assert (Hstep : forall w', delivering w' h = true ->
            content (card (step env w' (RecognitionResult h results))) =
              concatenation (map transcript firsts)).
  { intros w' Hd'. unfold step, dispatch. rewrite exec_bind.
    unfold gets at 1 2. simpl. rewrite Hd'.
    by apply onresult_content. }
  split; [by apply Hstep|].
  apply Hstep.
  unfold step, dispatch. rewrite exec_bind. unfold gets at 1 2. simpl.
  rewrite Hd. unfold onresult.
  destruct (transcription earlier); exact Hd.
Qed.

Lemma C7_witness :
  let w := step chromeEnv initialWorld ClickStartRecording in
  delivering w 0 = true /\
  content (card (step chromeEnv w
     (RecognitionResult 0 [final "ola "; interim "mundo"]))) = "ola mundo" /\
  content (card (step chromeEnv
     (step chromeEnv w (RecognitionResult 0 [final "ola "; interim "mun"]))
     (RecognitionResult 0 [final "ola "; interim "mundo"]))) = "ola mundo".
Proof.
  split; [reflexivity|].
  apply (C7_result_overwrites_with_concatenation chromeEnv
           (step chromeEnv initialWorld ClickStartRecording) 0
           [final "ola "; interim "mun"] [final "ola "; interim "mundo"]
           [ {| transcript := "ola " |}; {| transcript := "mundo" |} ]);
    reflexivity.
Defined.

(** ** Starting and releasing a recognition object *)

Lemma alter_snoc {A} (f : A -> A) (l : list A) (x : A) :
  alter f (length l) (l ++ [x]) = l ++ [f x].
Proof.
  rewrite <- (Nat.add_0_r (length l)). by rewrite alter_app_r.
Qed.

Lemma length_released (w : World) :
  length (released w) = length (recognitions w).
Proof.
  unfold released. destruct (speechRecognitionRef (card w)); [|done].
  apply length_alter.
Qed.

Lemma startRecognition_run (w : World) :
  startRecognition w =
    (tt,
     {| card :=
          {| shouldShowOnboarding := shouldShowOnboarding (card w);
             isRecording := isRecording (card w);
             content := content (card w);
             selectedFolderId := selectedFolderId (card w);
             speechRecognitionRef := Some (length (recognitions w));
             isRecordingRef := isRecordingRef (card w) |};
        recognitions := released w ++ [configured];
        pendingTimers := pendingTimers w |},
     releaseLog w ++
       [RecognitionNew (length (recognitions w));
        WriteSpeechRecognitionRef (Some (length (recognitions w)));
        RecognitionStart (length (recognitions w))]).
Proof.
  pose proof (length_released w) as Hlen.
  destruct w as [[o r c f ref flag] recs n].
  unfold released, releaseLog in *. simpl in *.
  destruct ref as [h0|]; unfold startRecognition, bind; simpl;
    unfold withRecognitions, withCard; simpl.
  - rewrite <- Hlen. rewrite !alter_snoc. done.
  - rewrite !alter_snoc. done.
Qed.

Lemma handleStopRecording_run (w : World) :
  handleStopRecording w =
    (tt,
     {| card :=
          {| shouldShowOnboarding := shouldShowOnboarding (card w);
             isRecording := false;
             content := content (card w);
             selectedFolderId := selectedFolderId (card w);
             speechRecognitionRef := None;
             isRecordingRef := false |};
        recognitions := released w;
        pendingTimers := pendingTimers w |},
     WriteIsRecordingRef false :: releaseLog w).
Proof.
  destruct w as [[o r c f ref flag] recs n].
  unfold released, releaseLog. simpl.
  by destruct ref as [h0|].
Qed.

Lemma unmountCleanup_run (w : World) :
  unmountCleanup w =
    (tt,
     {| card :=
          {| shouldShowOnboarding := shouldShowOnboarding (card w);
             isRecording := isRecording (card w);
             content := content (card w);
             selectedFolderId := selectedFolderId (card w);
             speechRecognitionRef := None;
             isRecordingRef := isRecordingRef (card w) |};
        recognitions := released w;
        pendingTimers := pendingTimers w |},
     releaseLog w).
Proof.
  destruct w as [[o r c f ref flag] recs n].
  unfold released, releaseLog. simpl.
  by destruct ref as [h0|].
Qed.

Lemma handleDialogOpenChange_close (w : World) :
  handleDialogOpenChange false w =
    (tt,
     {| card :=
          {| shouldShowOnboarding := true;
             isRecording := false;
             content := "";
             selectedFolderId := None;
             speechRecognitionRef := None;
             isRecordingRef := false |};
        recognitions := released w;
        pendingTimers := pendingTimers w |},
     WriteIsRecordingRef false :: releaseLog w ++ [HandleOpen false]).
Proof.
  unfold handleDialogOpenChange, bind. simpl.
  rewrite handleStopRecording_run. simpl. by rewrite app_nil_r.
Qed.

(** ** Which objects listen *)

(** A status change that cannot produce [Active] creates no live object. *)
Lemma liveIn_alter (f : Status -> Status) (h h' : handle) (recs : list Recognition) :
  (forall s, f s = Active -> s = Active /\ h' <> h) ->
  liveIn (alter (withStatus f) h recs) h' -> liveIn recs h'.
Proof.
  intros Hf (r & Hl & Hs). rewrite list_lookup_alter in Hl.
  case_decide as Hh.
  - subst h'. destruct (recs !! h) as [r0|] eqn:Hr0; [|done].
    simpl in Hl. injection Hl as <-. simpl in Hs.
    destruct (Hf _ Hs) as [_ Hne]. congruence.
  - by exists r.
Qed.

Lemma stopRequested_not_active (s : Status) : stopRequested s <> Active.
Proof. by destruct s. Qed.

(** Once the held object has been asked to stop, nothing listens. *)
Lemma released_none_live (w : World) (h : handle) :
  (forall h', live w h' -> speechRecognitionRef (card w) = Some h') ->
  ~ liveIn (released w) h.
Proof.
  intros Hheld Hlive. unfold released in Hlive.
  destruct (speechRecognitionRef (card w)) as [h0|] eqn:Href.
  - destruct (decide (h = h0)) as [->|Hne].
    + destruct Hlive as (r & Hl & Hs). rewrite list_lookup_alter_eq in Hl.
      destruct (recognitions w !! h0) as [r0|]; [|done].
      simpl in Hl. injection Hl as <-. simpl in Hs.
      by apply stopRequested_not_active in Hs.
    + apply liveIn_alter in Hlive.
      * apply Hheld in Hlive. congruence.
      * intros s Hs. by apply stopRequested_not_active in Hs.
  - apply Hheld in Hlive. congruence.
Qed.

Lemma liveIn_snoc_configured (recs : list Recognition) (h : handle) :
  liveIn (recs ++ [configured]) h <-> liveIn recs h \/ h = length recs.
Proof.
  unfold liveIn. split.
  - intros (r & Hl & Hs). apply lookup_snoc_Some in Hl as [[_ Hl]|[-> _]].
    + left. by exists r.
    + by right.
  - intros [(r & Hl & Hs)| ->].
    + exists r. split; [|done]. by apply lookup_app_l_Some.
    + exists configured. split; [|done]. apply lookup_snoc_Some. by right.
Qed.

(** ** What holds between tasks *)

Ltac unfold_handlers :=
  unfold step, effects, exec, log, dispatch,
    handleStartEditor, handleContentChanged, handleFolderSelected,
    handleDialogOpenChange, handleStartRecording, braveAdvisory,
    onresult, onerror, onend, restartCallback, markEnded, takeTimer,
    setTimeout, setShouldShowOnboarding, setIsRecording, setContent,
    setSelectedFolderId, readIsRecordingRef, writeIsRecordingRef,
    readSpeechRecognitionRef, writeSpeechRecognitionRef,
    bind, ret, emit, gets, modify, withCard, withRecognitions.

Lemma consistent_initial : consistent initialWorld.
Proof.
  split; simpl; try done.
  intros h (r & Hl & _). done.
Qed.

Lemma consistent_startRecognition (w : World) :
  consistent w -> isRecordingRef (card w) = true ->
  consistent (exec startRecognition w).
Proof.
  intros [Hb Hh Hl Hf] Hflag. unfold exec. rewrite startRecognition_run.
  split; simpl; try done.
  intros h Hlive. unfold live in Hlive. simpl in Hlive.
  apply liveIn_snoc_configured in Hlive as [Hlive| ->].
  - by apply released_none_live in Hlive.
  - by rewrite length_released.
Qed.

Lemma consistent_handleStopRecording (w : World) :
  consistent w -> consistent (exec handleStopRecording w).
Proof.
  intros [Hb Hh Hl Hf]. unfold exec. rewrite handleStopRecording_run.
  split; simpl; try done.
  intros h Hlive. unfold live in Hlive. simpl in Hlive.
  by apply released_none_live in Hlive.
Qed.

Lemma consistent_unmountCleanup (w : World) :
  consistent w -> consistent (exec unmountCleanup w).
Proof.
  intros [Hb Hh Hl Hf]. unfold exec. rewrite unmountCleanup_run.
  split; simpl; try done.
  intros h Hlive. unfold live in Hlive. simpl in Hlive.
  by apply released_none_live in Hlive.
Qed.

Lemma exec_braveAdvisory (env : Env) (w : World) :
  exec (braveAdvisory env) w = w.
Proof. unfold braveAdvisory. by destruct (brave env) as [|[]|]. Qed.

Lemma liveIn_markEnded (h h' : handle) (recs : list Recognition) :
  liveIn (alter (withStatus (fun _ => Ended)) h recs) h' -> liveIn recs h'.
Proof. apply liveIn_alter. intros s Hs. discriminate. Qed.

Lemma timer_run (env : Env) (w : World) :
  dispatch env TimerFires w =
    match pendingTimers w with
    | O => (tt, w, [])
    | S _ =>
        if isRecordingRef (card w) then startRecognition (timerTaken w)
        else (tt, timerTaken w, [])
    end.
Proof.
  unfold dispatch, restartCallback, takeTimer, readIsRecordingRef,
    bind, gets, modify, ret. simpl.
  destruct (pendingTimers w) as [|n] eqn:Hn; [done|].
  unfold timerTaken. rewrite Hn. simpl.
  destruct (isRecordingRef (card w)); [|done].
  by destruct (startRecognition _) as [[[] w'] t].
Qed.

Lemma consistent_step (env : Env) (w : World) (e : event) :
  consistent w -> consistent (step env w e).
Proof.
  intros Hc. pose proof Hc as [Hb Hh Hl Hf].
  destruct e as [|v|  | | |b|v| |h rs|h|h| ].
  - (* start editor *) unfold_handlers. simpl. by split.
  - (* typing *) unfold_handlers. simpl. case_decide; simpl; by split.
  - (* save *)
    unfold step, exec, dispatch.
    destruct (decide (content (card w) = "")) as [He|He].
    + by rewrite handleSaveNote_empty.
    + rewrite handleSaveNote_filled by done. by split.
  - (* start recording *)
    unfold step, dispatch, handleStartRecording.
    destruct (negb (isSpeechRecognitionAPIAvailable env)); [done|].
    rewrite !exec_bind, exec_braveAdvisory.
    apply consistent_startRecognition; [|done].
    unfold_handlers. simpl. by split.
  - (* stop recording *) by apply consistent_handleStopRecording.
  - (* dialog *)
    unfold step, dispatch, handleDialogOpenChange.
    destruct b; simpl; [done|].
    rewrite !exec_bind.
    apply consistent_handleStopRecording in Hc as [Hb' Hh' Hl' Hf'].
    unfold_handlers. simpl. by split.
  - (* folder *)
    unfold_handlers. simpl. split; simpl; try done.
    case_decide; congruence.
  - (* unmount *) by apply consistent_unmountCleanup.
  - (* result *)
    unfold_handlers. simpl. destruct (delivering w h); [|done].
    destruct (transcription rs); simpl; by split.
  - (* error *)
    unfold_handlers. simpl. destruct (delivering w h); [|done]. simpl.
    destruct (isRecordingRef (card w)) eqn:Hflag; simpl; [done|].
    split; simpl; try done.
    intros h0 Hh0. by apply Hh in Hh0.
  - (* end *)
    unfold_handlers. simpl. destruct (delivering w h); [|done]. simpl.
    destruct (isRecordingRef (card w)) eqn:Hflag; simpl.
    + split; simpl; try done.
      * by rewrite Hflag.
      * intros h' Hlive. apply Hl. by apply liveIn_markEnded in Hlive.
    + split; simpl; try done.
      intros h' Hlive. apply liveIn_markEnded, Hl in Hlive.
      apply Hh in Hlive. congruence.
  - (* timer *)
    unfold step, exec. rewrite timer_run.
    destruct (pendingTimers w) as [|n] eqn:Hn; [done|].
    assert (consistent (timerTaken w)) as Hc' by by split.
    destruct (isRecordingRef (card w)) eqn:Hflag; [|done].
    by apply consistent_startRecognition.
Qed.

Lemma reachable_consistent (env : Env) (w : World) :
  reachable env w -> consistent w.
Proof.
  induction 1 as [|w e _ IH]; [apply consistent_initial|].
  by apply consistent_step.
Qed.

(** ** One listening object at a time *)

Lemma filter_active_nil (recs : list Recognition) :
  (forall h, ~ liveIn recs h) ->
  filter (fun r => status r = Active) recs = [].
Proof.
  induction recs as [|r recs IH]; intros Hnone; [done|].
  rewrite filter_cons_False.
  - apply IH. intros h (r' & Hl & Hs). apply (Hnone (S h)). by exists r'.
  - intros Hs. apply (Hnone 0). by exists r.
Qed.

Lemma at_most_one_active (recs : list Recognition) :
  (forall i j, liveIn recs i -> liveIn recs j -> i = j) ->
  length (filter (fun r => status r = Active) recs) <= 1.
Proof.
  induction recs as [|r recs IH]; intros Huniq; [simpl; lia|].
  destruct (decide (status r = Active)) as [Hs|Hs].
  - rewrite filter_cons_True by done. rewrite filter_active_nil; [simpl; lia|].
    intros h (r' & Hl & Hs').
    assert (0 = S h) as Habs; [|discriminate].
    apply Huniq; [by exists r|by exists r'].
  - rewrite filter_cons_False by done. apply IH.
    intros i j (ri & Hi & Hsi) (rj & Hj & Hsj).
    assert (S i = S j) as Heq; [|by injection Heq].
    apply Huniq; [by exists ri|by exists rj].
Qed.

(** [startRecognition] with a listening object in the ref: that object is
    asked to stop and dropped before the new one is made, and the new one is
    the one that listens afterwards. *)
Lemma startRecognition_replaces (w : World) (h0 : handle) :
  speechRecognitionRef (card w) = Some h0 -> live w h0 ->
  (exists r, recognitions (exec startRecognition w) !! h0 = Some r /\
             status r = Stopping) /\
  speechRecognitionRef (card (exec startRecognition w)) =
    Some (length (recognitions w)) /\
  live (exec startRecognition w) (length (recognitions w)) /\
  log startRecognition w =
    [RecognitionStop h0; WriteSpeechRecognitionRef None;
     RecognitionNew (length (recognitions w));
     WriteSpeechRecognitionRef (Some (length (recognitions w)));
     RecognitionStart (length (recognitions w))].
Proof.
  intros Href (r0 & Hl0 & Hs0). unfold exec, log, live.
  rewrite startRecognition_run. simpl.
  pose proof (length_released w) as Hlen.
  unfold releaseLog. unfold released in *. rewrite Href in *.
  repeat split; try done.
  - exists (withStatus stopRequested r0). split; [|by simpl; rewrite Hs0].
    apply lookup_app_l_Some. by rewrite list_lookup_alter_eq, Hl0.
  - apply liveIn_snoc_configured. right. by rewrite Hlen.
Qed.

(** Both ways into [startRecognition] run it on a world with the same
    recognition objects and the same handle in the ref. *)
Lemma entersStart_run (env : Env) (w : World) (e : event) :
  entersStart env w e ->
  exists w0 before after,
    step env w e = exec startRecognition w0 /\
    effects env w e = before ++ log startRecognition w0 ++ after /\
    recognitions w0 = recognitions w /\
    speechRecognitionRef (card w0) = speechRecognitionRef (card w).
Proof.
  intros [[-> Ha]|(-> & Hn & Hflag)].
  - unfold step, effects, dispatch, handleStartRecording. rewrite Ha. simpl.
    rewrite !exec_bind, exec_braveAdvisory, !log_bind.
    eexists _, [WriteIsRecordingRef true], _.
    split; [reflexivity|]. split; [reflexivity|done].
  - unfold step, effects, exec, log. rewrite timer_run.
    destruct (pendingTimers w) as [|n] eqn:Hn'; [done|]. rewrite Hflag.
    exists (timerTaken w), [], []. by rewrite app_nil_r.
Qed.

(** C3: in every world the loop can reach, at most one recognition object
    listens, and it is the one the ref holds; a held handle implies that the
    session is listening; and a task that starts or restarts recognition
    while an object listens asks that object to stop and drops it before it
    creates the next one, which is then the one that listens. *)
Theorem C3_at_most_one_live_stream (env : Env) (w : World) :
  reachable env w ->
  liveCount w <= 1 /\
  (forall h, live w h -> speechRecognitionRef (card w) = Some h) /\
  (forall h, speechRecognitionRef (card w) = Some h ->
     listening w /\ isRecording (card w) = true) /\
  (forall e h0, entersStart env w e -> live w h0 ->
     (exists r, recognitions (step env w e) !! h0 = Some r /\ status r = Stopping) /\
     live (step env w e) (length (recognitions w)) /\
     liveCount (step env w e) <= 1 /\
     exists before after,
       effects env w e =
         before ++
         [RecognitionStop h0; WriteSpeechRecognitionRef None;
          RecognitionNew (length (recognitions w))] ++ after).
Proof.
  intros Hr. pose proof (reachable_consistent _ _ Hr) as [Hb Hh Hl Hf].
  assert (Hcount : forall w', reachable env w' -> liveCount w' <= 1).
  { intros w' Hr'. apply reachable_consistent in Hr' as [_ _ Hl' _].
    apply at_most_one_active. intros i j Hi Hj.
    apply Hl' in Hi, Hj. congruence. }
  split; [by apply Hcount|].
  split; [done|].
  split.
  { intros h Hheld. split; [by apply (Hh h)|]. rewrite Hb. by apply (Hh h). }
  intros e h0 Hstart Hlive.
  destruct (entersStart_run env w e Hstart)
    as (w0 & before & after & Hstep & Heff & Hrecs & Href).
  destruct (startRecognition_replaces w0 h0) as (Hold & _ & Hnew & Hlog).
  { rewrite Href. by apply Hl. }
  { unfold live. by rewrite Hrecs. }
  rewrite Hstep, Heff, Hlog, <- Hrecs.
  split_and!; [done|done| |].
  - rewrite <- Hstep. apply Hcount. by constructor.
  - exists before. eexists. reflexivity.
Qed.

Lemma C3_witness :
  let w := step chromeEnv initialWorld ClickStartRecording in
  reachable chromeEnv w /\
  entersStart chromeEnv w ClickStartRecording /\
  live w 0 /\
  liveCount w <= 1 /\
  live (step chromeEnv w ClickStartRecording) 1 /\
  liveCount (step chromeEnv w ClickStartRecording) <= 1.
Proof.
  assert (reachable chromeEnv (step chromeEnv initialWorld ClickStartRecording)) as Hr
    by apply reachable_step, reachable_initial.
  assert (entersStart chromeEnv (step chromeEnv initialWorld ClickStartRecording)
            ClickStartRecording) as Hs by (left; split; reflexivity).
  assert (live (step chromeEnv initialWorld ClickStartRecording) 0) as Hl
    by (exists configured; split; reflexivity).
  destruct (C3_at_most_one_live_stream chromeEnv
              (step chromeEnv initialWorld ClickStartRecording) Hr)
    as (Hcount & _ & _ & Hnext).
  destruct (Hnext ClickStartRecording 0 Hs Hl) as (_ & Hnew & Hcount' & _).
  repeat split; assumption.
Defined.

(** ** Errors reported by the platform *)

(** C8: in every world the loop can reach, an [error] event leaves the world
    as it was (flags, handle, draft, recognition objects, pending timers) and
    its log holds no timer and no new or started recognition object: nothing
    is restarted. *)
Theorem C8_error_event_changes_nothing (env : Env) (w : World) (h : handle) :
  reachable env w ->
  step env w (RecognitionError h) = w /\
  restarts (effects env w (RecognitionError h)) = [] /\
  (delivering w h = true -> effects env w (RecognitionError h) = [ConsoleError]).
Proof.
  intros Hr. apply reachable_consistent in Hr as [Hb _ _ _].
  unfold_handlers. simpl.
  destruct (delivering w h); simpl; [|done].
  destruct (isRecordingRef (card w)) eqn:Hflag; simpl; [done|].
  split; [|done].
  rewrite <- Hb. by rewrite card_eta, world_eta.
Qed.

Lemma C8_witness :
  let w := step chromeEnv initialWorld ClickStartRecording in
  reachable chromeEnv w /\
  step chromeEnv w (RecognitionError 0) = w /\
  restarts (effects chromeEnv w (RecognitionError 0)) = [] /\
  (delivering w 0 = true -> effects chromeEnv w (RecognitionError 0) = [ConsoleError]).
Proof.
  assert (reachable chromeEnv (step chromeEnv initialWorld ClickStartRecording)) as Hr
    by apply reachable_step, reachable_initial.
  split; [exact Hr|].
  exact (C8_error_event_changes_nothing chromeEnv
           (step chromeEnv initialWorld ClickStartRecording) 0 Hr).
Defined.

(** ** The folder handed to the creation callback *)

Lemma releaseLog_no_callback (w : World) (text : string) (f : option string) :
  ~ In (OnNoteCreated text f) (releaseLog w).
Proof.
  unfold releaseLog. destruct (speechRecognitionRef (card w)); simpl; intuition discriminate.
Qed.

Lemma startRecognition_no_callback (w : World) (text : string) (f : option string) :
  ~ In (OnNoteCreated text f) (log startRecognition w).
Proof.
  unfold log. rewrite startRecognition_run. simpl.
  rewrite in_app_iff. intros [Hin|Hin].
  - by apply releaseLog_no_callback in Hin.
  - simpl in Hin. intuition discriminate.
Qed.

(** Only a save calls the creation callback, and it passes the draft. *)
Lemma callback_only_on_save (env : Env) (w : World) (e : event)
    (text : string) (f : option string) :
  In (OnNoteCreated text f) (effects env w e) ->
  e = ClickSave /\ text = content (card w) /\ f = selectedFolderId (card w).
Proof.
  destruct e as [|v|  | | |b|v| |h rs|h|h| ].
  - unfold_handlers. simpl. done.
  - unfold_handlers. simpl. case_decide; simpl; done.
  - unfold effects, log, dispatch.
    destruct (decide (content (card w) = "")) as [He|He].
    + rewrite handleSaveNote_empty by done. simpl. intuition discriminate.
    + rewrite handleSaveNote_filled by done. simpl.
      intros [?|[Hc|[?|[]]]]; try discriminate. by injection Hc as <- <-.
  - unfold effects, dispatch, handleStartRecording.
    destruct (negb (isSpeechRecognitionAPIAvailable env)).
    + simpl. intuition discriminate.
    + rewrite !log_bind, !in_app_iff.
      intros [Hin|[Hin|[Hin|[Hin|Hin]]]].
      * done.
      * simpl in Hin. intuition discriminate.
      * done.
      * by apply startRecognition_no_callback in Hin.
      * unfold braveAdvisory in Hin. destruct (brave env) as [|[]|]; simpl in Hin;
          intuition discriminate.
  - unfold effects, log, dispatch. rewrite handleStopRecording_run. simpl.
    intros [?|Hin]; [discriminate|]. by apply releaseLog_no_callback in Hin.
  - unfold effects, dispatch, handleDialogOpenChange.
    destruct b; simpl; [intuition discriminate|].
    rewrite !log_bind, !in_app_iff.
    intros [[Hin|[Hin|[Hin|Hin]]]|Hin]; try done.
    + unfold log in Hin. rewrite handleStopRecording_run in Hin. simpl in Hin.
      destruct Hin as [?|Hin]; [discriminate|].
      by apply releaseLog_no_callback in Hin.
    + simpl in Hin. intuition discriminate.
  - unfold_handlers. simpl. done.
  - unfold effects, log, dispatch. rewrite unmountCleanup_run. simpl.
    intros Hin. by apply releaseLog_no_callback in Hin.
  - unfold_handlers. simpl. destruct (delivering w h); simpl; [|done].
    destruct (transcription rs); simpl; intuition discriminate.
  - unfold_handlers. simpl. destruct (delivering w h); simpl; [|done].
    destruct (isRecordingRef (card w)); simpl; intuition discriminate.
  - unfold_handlers. simpl. destruct (delivering w h); simpl; [|done].
    destruct (isRecordingRef (card w)); simpl; intuition discriminate.
  - unfold effects, log. rewrite timer_run.
    destruct (pendingTimers w); [done|].
    destruct (isRecordingRef (card w)); [|done].
    intros Hin. by apply (startRecognition_no_callback (timerTaken w)) in Hin.
Qed.

(** C10: the selected folder is never the empty string.  It is [None] at the
    start, the "no folder" option (the empty value) stores [None], any other
    option stores its value, the reset paths store [None]; so whenever the
    creation callback is called, its folder argument is [None] or a non-empty
    identifier. *)
Theorem C10_folder_never_blank (env : Env) (w : World) :
  reachable env w ->
  selectedFolderId (card initialWorld) = None /\
  selectedFolderId (card w) <> Some "" /\
  selectedFolderId (card (step env w (SelectFolder ""))) = None /\
  (forall v, v <> "" -> selectedFolderId (card (step env w (SelectFolder v))) = Some v) /\
  selectedFolderId (card (step env w (DialogOpenChange false))) = None /\
  (content (card w) <> "" -> selectedFolderId (card (step env w ClickSave)) = None) /\
  (forall e text folderId,
     In (OnNoteCreated text folderId) (effects env w e) ->
     folderId = None \/ exists id, folderId = Some id /\ id <> "").
Proof.
  intros Hr. apply reachable_consistent in Hr as [_ _ _ Hf].
  split_and!; try done.
  - intros v Hv. unfold_handlers. simpl. by rewrite decide_False.
  - unfold step, dispatch, handleDialogOpenChange. simpl.
    rewrite !exec_bind. done.
  - intros Hc. unfold step, exec, dispatch. by rewrite handleSaveNote_filled.
  - intros e text folderId Hin.
    apply callback_only_on_save in Hin as (_ & _ & ->).
    destruct (selectedFolderId (card w)) as [id|]; [right|by left].
    exists id. split; [done|]. congruence.
Qed.

Lemma C10_witness :
  let w := step chromeEnv (step chromeEnv initialWorld (ChangeContent "nota"))
             (SelectFolder "") in
  reachable chromeEnv w /\
  selectedFolderId (card w) <> Some "" /\
  In (OnNoteCreated "nota" None) (effects chromeEnv w ClickSave).
Proof.
  assert (reachable chromeEnv
            (step chromeEnv (step chromeEnv initialWorld (ChangeContent "nota"))
               (SelectFolder ""))) as Hr
    by (do 2 apply reachable_step; apply reachable_initial).
  destruct (C10_folder_never_blank chromeEnv _ Hr) as (_ & Hne & _).
  split; [exact Hr|]. split; [exact Hne|]. right. left. reflexivity.
Defined.

(** ** Stopping *)

Lemma released_nothing_held (w : World) :
  speechRecognitionRef (card w) = None ->
  released w = recognitions w /\ releaseLog w = [].
Proof. intros Href. unfold released, releaseLog. by rewrite Href. Qed.

(** A stopped session stays stopped under every task but a click on "start",
    and such a task neither sets a timer nor makes or starts a recognition
    object. *)
Lemma stopped_step (env : Env) (w : World) (e : event) :
  e <> ClickStartRecording -> stopped w ->
  stopped (step env w e) /\
  restarts (effects env w e) = [] /\
  length (recognitions (step env w e)) = length (recognitions w).
Proof.
  intros He (Hflag & Hrec & Href).
  destruct (released_nothing_held w Href) as [Hrel Hlog].
  destruct e as [|v|  | | |b|v| |h rs|h|h| ]; try done.
  - unfold_handlers. simpl. by case_decide.
  - unfold step, effects, exec, log, dispatch.
    destruct (decide (content (card w) = "")) as [Hc|Hc].
    + by rewrite handleSaveNote_empty.
    + by rewrite handleSaveNote_filled.
  - unfold step, effects, exec, log, dispatch.
    rewrite handleStopRecording_run, Hrel, Hlog. simpl. split_and!; try done.
  - destruct b; [unfold_handlers; simpl; by split_and!|].
    unfold step, effects, exec, log, dispatch.
    rewrite handleDialogOpenChange_close, Hrel, Hlog.
    simpl. split_and!; try done.
  - unfold step, effects, exec, log, dispatch.
    rewrite unmountCleanup_run, Hrel, Hlog. simpl. split_and!; try done.
  - unfold_handlers. simpl. destruct (delivering w h); [|done].
    by destruct (transcription rs).
  - unfold_handlers. simpl. destruct (delivering w h); [|done]. simpl.
    rewrite Hflag. simpl. split_and!; try done.
  - unfold_handlers. simpl. destruct (delivering w h); [|done]. simpl.
    rewrite Hflag. simpl. split_and!; try done. apply length_alter.
  - unfold step, effects, exec, log. rewrite timer_run.
    destruct (pendingTimers w); [done|]. rewrite Hflag. simpl. split_and!; try done.
Qed.

Lemma stopped_run (env : Env) (es : list event) :
  forall w,
    Forall (fun e => e <> ClickStartRecording) es -> stopped w ->
    stopped (run env es w).1 /\
    restarts (run env es w).2 = [] /\
    length (recognitions (run env es w).1) = length (recognitions w).
Proof.
  induction es as [|e es IH]; intros w Hes Hw; [done|].
  apply Forall_cons in Hes as [He Hes].
  destruct (stopped_step env w e He Hw) as (Hw' & Hlog & Hlen).
  destruct (IH _ Hes Hw') as (Hw'' & Hlog' & Hlen').
  simpl. destruct (run env es (step env w e)) as [w'' t] eqn:Hrun. simpl in *.
  split_and!; [done| |congruence].
  unfold restarts in *. by rewrite filter_app, Hlog, Hlog'.
Qed.

(** C1: from every world, [handleStopRecording] lowers the recording flag
    before it asks the platform to stop the held object, and drops the
    handle; whatever tasks follow (stream-ended events, restart timers that
    were already set, anything but a new click on "start"), the session stays
    stopped and nothing is restarted: no timer is set and no recognition
    object is made or started. *)
Theorem C1_stop_suppresses_restart (env : Env) (w : World) (es : list event) :
  Forall (fun e => e <> ClickStartRecording) es ->
  effects env w ClickStopRecording =
    WriteIsRecordingRef false ::
    match speechRecognitionRef (card w) with
    | Some h => [RecognitionStop h; WriteSpeechRecognitionRef None]
    | None => []
    end /\
  stopped (step env w ClickStopRecording) /\
  stopped (run env es (step env w ClickStopRecording)).1 /\
  restarts (run env es (step env w ClickStopRecording)).2 = [] /\
  length (recognitions (run env es (step env w ClickStopRecording)).1) =
    length (recognitions w).
Proof.
  intros Hes.
  assert (stopped (step env w ClickStopRecording)) as Hstopped.
  { unfold step, exec, dispatch. by rewrite handleStopRecording_run. }
  destruct (stopped_run env es _ Hes Hstopped) as (Hrun & Hlog & Hlen).
  split_and!; try done.
  - unfold effects, log, dispatch. by rewrite handleStopRecording_run.
  - rewrite Hlen. unfold step, exec, dispatch.
    rewrite handleStopRecording_run. simpl. apply length_released.
Qed.

Lemma C1_witness :
  let w := (run chromeEnv [ClickStartRecording; RecognitionEnd 0] initialWorld).1 in
  let es := [RecognitionEnd 0; TimerFires; RecognitionError 0; TimerFires] in
  Forall (fun e => e <> ClickStartRecording) es /\
  pendingTimers w = 1 /\
  stopped (run chromeEnv es (step chromeEnv w ClickStopRecording)).1 /\
  restarts (run chromeEnv es (step chromeEnv w ClickStopRecording)).2 = [].
Proof.
  assert (Forall (fun e => e <> ClickStartRecording)
            [RecognitionEnd 0; TimerFires; RecognitionError 0; TimerFires]) as Hes
    by (repeat constructor; discriminate).
  destruct (C1_stop_suppresses_restart chromeEnv
              (run chromeEnv [ClickStartRecording; RecognitionEnd 0] initialWorld).1
              [RecognitionEnd 0; TimerFires; RecognitionError 0; TimerFires] Hes)
    as (_ & _ & Hrun & Hlog & _).
  split; [exact Hes|]. split; [reflexivity|]. split; [exact Hrun|exact Hlog].
Defined.

(** ** An end the user did not ask for *)

Lemma recognitionEnd_run_recording (env : Env) (w : World) (h : handle) :
  isRecordingRef (card w) = true -> delivering w h = true ->
  dispatch env (RecognitionEnd h) w =
    (tt,
     {| card := card w;
        recognitions := alter (withStatus (fun _ => Ended)) h (recognitions w);
        pendingTimers := S (pendingTimers w) |},
     [SetTimeout 200]).
Proof.
  intros Hflag Hd. unfold_handlers. simpl. rewrite Hd. simpl. by rewrite Hflag.
Qed.

(** When a recognition object ends while the recording flag is up, the
    [end] handler sets exactly one timer, of 200 ms, and touches nothing
    else of the component; when that timer fires, exactly one new
    recognition object is made and started, the ref holds it, it listens,
    the flag is still up, and the draft (content, folder, onboarding) is
    what it was before the end. *)
Lemma unexpected_end_restarts_once
    (env : Env) (w : World) (h : handle) :
  isRecordingRef (card w) = true ->
  delivering w h = true ->
  let w1 := step env w (RecognitionEnd h) in
  let w2 := step env w1 TimerFires in
  let n := length (recognitions w) in
  effects env w (RecognitionEnd h) = [SetTimeout 200] /\
  pendingTimers w1 = S (pendingTimers w) /\
  card w1 = card w /\
  length (recognitions w1) = n /\
  restarts (effects env w1 TimerFires) = [RecognitionNew n; RecognitionStart n] /\
  pendingTimers w2 = pendingTimers w /\
  length (recognitions w2) = S n /\
  listening w2 /\
  isRecording (card w2) = isRecording (card w) /\
  speechRecognitionRef (card w2) = Some n /\
  recognitions w2 !! n = Some configured /\
  content (card w2) = content (card w) /\
  selectedFolderId (card w2) = selectedFolderId (card w) /\
  shouldShowOnboarding (card w2) = shouldShowOnboarding (card w).
Proof.
  intros Hflag Hd.
  pose proof (recognitionEnd_run_recording env w h Hflag Hd) as Hend.
  set (w1 := {| card := card w;
                recognitions := alter (withStatus (fun _ => Ended)) h (recognitions w);
                pendingTimers := S (pendingTimers w) |}) in *.
  assert (dispatch env TimerFires w1 = startRecognition (timerTaken w1)) as Htimer.
  { rewrite timer_run. simpl. by rewrite Hflag. }
  assert (length (released (timerTaken w1)) = length (recognitions w)) as Hlen.
  { rewrite length_released. simpl. apply length_alter. }
  assert (length (recognitions w1) = length (recognitions w)) as Hlen1
    by apply length_alter.
  cbv zeta. unfold step, effects, exec, log.
  rewrite Hend. cbn [fst snd].
  rewrite Htimer, startRecognition_run. cbn [fst snd].
  cbn [card recognitions pendingTimers timerTaken shouldShowOnboarding isRecording
       content selectedFolderId speechRecognitionRef isRecordingRef].
  rewrite Hlen1.
  split_and!; try done.
  - unfold restarts. rewrite filter_app.
    unfold releaseLog. simpl.
    by destruct (speechRecognitionRef (card w)).
  - rewrite length_app, Hlen. simpl. lia.
  - apply lookup_snoc_Some. right. by rewrite Hlen.
Qed.

(** C2 (the transcript across a restart): the restart itself leaves the
    draft alone, but the restarted object reports only what it has heard
    itself and [onresult] puts exactly that in the draft.  Here the first
    object has delivered "ola mundo", ends while the flag is up and is
    replaced after the 200 ms timer; the first result of the new object,
    " de novo", becomes the whole content, and "ola mundo" is gone.  The same
    segment delivered by the first object, next to its earlier one, would
    have given "ola mundo de novo". *)
Theorem C2_restart_then_result_drops_transcript :
  let w := (run chromeEnv
              [ClickStartRecording; RecognitionResult 0 [final "ola mundo"]]
              initialWorld).1 in
  let w2 := (run chromeEnv [RecognitionEnd 0; TimerFires] w).1 in
  let w3 := step chromeEnv w2 (RecognitionResult 1 [interim " de novo"]) in
  listening w /\
  delivering w 0 = true /\
  content (card w) = "ola mundo" /\
  restarts (run chromeEnv [RecognitionEnd 0; TimerFires] w).2 =
    [SetTimeout 200; RecognitionNew 1; RecognitionStart 1] /\
  listening w2 /\
  speechRecognitionRef (card w2) = Some 1 /\
  delivering w2 1 = true /\
  content (card w2) = "ola mundo" /\
  content (card w3) = " de novo" /\
  ~ (exists rest, content (card w3) = content (card w) +:+ rest) /\
  content (card (step chromeEnv w
             (RecognitionResult 0 [final "ola mundo"; interim " de novo"]))) =
    "ola mundo de novo".
Proof.
  cbv zeta. split_and!; try (vm_compute; reflexivity).
  intros [rest Hrest]. vm_compute in Hrest. discriminate.
Qed.

(** ** Leaving the card *)

(** Closing the dialog while the session listens: the session is stopped, no
    object listens, the held object was asked to stop after the flag went
    down, and the draft is reset whatever it held. *)
Lemma close_while_listening (env : Env) (w : World) (h : handle) :
  speechRecognitionRef (card w) = Some h ->
  (forall h', live w h' -> h' = h) ->
  let w' := step env w (DialogOpenChange false) in
  stopped w' /\ draftReset w' /\ (forall h', ~ live w' h') /\
  effects env w (DialogOpenChange false) =
    [WriteIsRecordingRef false; RecognitionStop h;
     WriteSpeechRecognitionRef None; HandleOpen false].
Proof.
  intros Href Hheld. simpl. unfold step, effects, exec, log, dispatch.
  rewrite handleDialogOpenChange_close. simpl.
  split_and!; try done.
  - intros h' Hlive. unfold live in Hlive. simpl in Hlive.
    apply released_none_live in Hlive; [done|].
    intros h'' Hl''. rewrite Href. f_equal. symmetry. by apply Hheld.
  - unfold releaseLog. by rewrite Href.
Qed.

(** C9 (the unmount path): the cleanup of the mount effect asks the held
    object to stop and drops the handle but leaves the recording flag up, so
    the session is not stopped; when the [end] event of that object arrives,
    its handler sets the restart timer, and the timer makes and starts a new
    recognition object that listens after the card is gone. *)
Theorem C9_unmount_leaves_flag_up_and_restarts :
  let w0 := step chromeEnv initialWorld ClickStartRecording in
  let w1 := step chromeEnv w0 Unmount in
  let w3 := (run chromeEnv [RecognitionEnd 0; TimerFires] w1).1 in
  listening w0 /\
  effects chromeEnv w0 Unmount = [RecognitionStop 0; WriteSpeechRecognitionRef None] /\
  isRecordingRef (card w1) = true /\
  ~ stopped w1 /\
  (run chromeEnv [RecognitionEnd 0; TimerFires] w1).2 =
    [SetTimeout 200; RecognitionNew 1; WriteSpeechRecognitionRef (Some 1);
     RecognitionStart 1] /\
  speechRecognitionRef (card w3) = Some 1 /\
  recognitions w3 !! 1 = Some configured /\
  stopped (step chromeEnv w0 ClickStopRecording) /\
  restarts (run chromeEnv [RecognitionEnd 0; TimerFires]
              (step chromeEnv w0 ClickStopRecording)).2 = [].
Proof.
  cbv zeta. split_and!; try (vm_compute; reflexivity).
  - intros (Hflag & _). vm_compute in Hflag. discriminate.
  - vm_compute. by split_and!.
Qed.

(** * Further properties of the handlers *)

(** ** Starting *)

Lemma handleStartRecording_world (env : Env) (w : World) :
  isSpeechRecognitionAPIAvailable env = true ->
  step env w ClickStartRecording =
    {| card :=
         {| shouldShowOnboarding := false;
            isRecording := true;
            content := content (card w);
            selectedFolderId := selectedFolderId (card w);
            speechRecognitionRef := Some (length (recognitions w));
            isRecordingRef := true |};
       recognitions := released w ++ [configured];
       pendingTimers := pendingTimers w |}.
Proof.
  intros Ha. unfold step, dispatch, handleStartRecording. rewrite Ha. simpl.
  rewrite !exec_bind, exec_braveAdvisory.
  unfold exec at 1. rewrite startRecognition_run. reflexivity.
Qed.

(** X1: where the capability exists, a click on "start" from any world leaves
    the session listening with a fresh recognition object in the ref, set to
    Brazilian Portuguese, continuous, with interim results and one
    alternative, and started; the onboarding text is hidden, and the content,
    the folder and the pending timers are what they were. *)
Theorem start_listens_and_keeps_draft (env : Env) (w : World) :
  isSpeechRecognitionAPIAvailable env = true ->
  let w' := step env w ClickStartRecording in
  let n := length (recognitions w) in
  listening w' /\
  isRecording (card w') = true /\
  shouldShowOnboarding (card w') = false /\
  speechRecognitionRef (card w') = Some n /\
  recognitions w' !! n =
    Some {| lang := "pt-BR"; continuous := true; maxAlternatives := 1;
            interimResults := true; status := Active |} /\
  length (recognitions w') = S n /\
  content (card w') = content (card w) /\
  selectedFolderId (card w') = selectedFolderId (card w) /\
  pendingTimers w' = pendingTimers w.
Proof.
  intros Ha. cbv zeta. rewrite (handleStartRecording_world env w Ha). simpl.
  split_and!; try done.
  - apply lookup_snoc_Some. right. by rewrite length_released.
  - rewrite length_app, length_released. simpl. lia.
Qed.

Lemma start_listens_and_keeps_draft_witness :
  let w := step chromeEnv initialWorld (ChangeContent "rascunho") in
  isSpeechRecognitionAPIAvailable chromeEnv = true /\
  listening (step chromeEnv w ClickStartRecording) /\
  content (card (step chromeEnv w ClickStartRecording)) = "rascunho".
Proof.
  destruct (start_listens_and_keeps_draft chromeEnv
              (step chromeEnv initialWorld (ChangeContent "rascunho")) eq_refl)
    as (Hl & _ & _ & _ & _ & _ & Hc & _).
  split; [reflexivity|]. split; [exact Hl|exact Hc].
Defined.

(** X2: the Brave probe only decides whether the warning toast is shown.  The
    toast appears exactly when the capability exists and the probe resolves to
    true, and two environments that agree on the capability lead to the same
    world whatever their probes give. *)
Theorem brave_probe_only_warns (env env' : Env) (w : World) :
  (filter (fun e => isWarning e = true) (effects env w ClickStartRecording) <> [] <->
     isSpeechRecognitionAPIAvailable env = true /\ brave env = Resolves true) /\
  (isSpeechRecognitionAPIAvailable env = isSpeechRecognitionAPIAvailable env' ->
   step env w ClickStartRecording = step env' w ClickStartRecording).
Proof.
  split.
  - unfold effects, dispatch, handleStartRecording.
    destruct (isSpeechRecognitionAPIAvailable env) eqn:Ha; simpl.
    + rewrite !log_bind, !filter_app.
      match goal with
      | |- context [log startRecognition ?w0] =>
          unfold log at 4; rewrite (startRecognition_run w0)
      end.
      simpl. rewrite filter_app. unfold releaseLog. simpl.
      unfold braveAdvisory.
      destruct (speechRecognitionRef (card w)); destruct (brave env) as [|[]|];
        simpl; split; try done; intros [_ ?]; done.
    + split; [done|]. intros [? _]. done.
  - intros Heq.
    destruct (isSpeechRecognitionAPIAvailable env) eqn:Ha.
    + rewrite (handleStartRecording_world env w Ha).
      by rewrite (handleStartRecording_world env' w).
    + unfold step, dispatch, handleStartRecording. by rewrite Ha, <- Heq.
Qed.

Lemma brave_probe_only_warns_witness :
  isSpeechRecognitionAPIAvailable chromeEnv =
    isSpeechRecognitionAPIAvailable
      {| hasSpeechRecognition := true; hasWebkitSpeechRecognition := false;
         brave := Resolves true |} /\
  step chromeEnv initialWorld ClickStartRecording =
    step {| hasSpeechRecognition := true; hasWebkitSpeechRecognition := false;
            brave := Resolves true |} initialWorld ClickStartRecording.
Proof.
  split; [reflexivity|].
  apply (brave_probe_only_warns chromeEnv
           {| hasSpeechRecognition := true; hasWebkitSpeechRecognition := false;
              brave := Resolves true |} initialWorld).
  reflexivity.
Defined.

(** ** Stopping, closing and unmounting *)

Lemma handleStopRecording_world (env : Env) (w : World) :
  step env w ClickStopRecording =
    {| card :=
         {| shouldShowOnboarding := shouldShowOnboarding (card w);
            isRecording := false;
            content := content (card w);
            selectedFolderId := selectedFolderId (card w);
            speechRecognitionRef := None;
            isRecordingRef := false |};
       recognitions := released w;
       pendingTimers := pendingTimers w |}.
Proof. unfold step, exec, dispatch. by rewrite handleStopRecording_run. Qed.

(** X3: stopping is idempotent.  A second stop leaves the world of the first
    and asks no recognition object to stop: its log is the flag write alone. *)
Theorem stop_twice_is_stop_once (env : Env) (w : World) :
  step env (step env w ClickStopRecording) ClickStopRecording =
    step env w ClickStopRecording /\
  effects env (step env w ClickStopRecording) ClickStopRecording =
    [WriteIsRecordingRef false].
Proof.
  split.
  - rewrite (handleStopRecording_world env (step env w ClickStopRecording)).
    by rewrite !handleStopRecording_world.
  - unfold effects, log, dispatch.
    rewrite handleStopRecording_run, handleStopRecording_world. done.
Qed.

(** X4: a request to close the dialog, in any world the loop can reach, leaves
    the session stopped with no recognition object listening and the draft
    reset, and passes [false] to [handleOpen] once, as the last effect; a
    request to open changes nothing and only passes [true] on. *)
Theorem close_stops_and_resets (env : Env) (w : World) :
  reachable env w ->
  (stopped (step env w (DialogOpenChange false)) /\
   draftReset (step env w (DialogOpenChange false)) /\
   liveCount (step env w (DialogOpenChange false)) = 0 /\
   pendingTimers (step env w (DialogOpenChange false)) = pendingTimers w /\
   exists before,
     effects env w (DialogOpenChange false) = before ++ [HandleOpen false] /\
     ~ In (HandleOpen false) before) /\
  step env w (DialogOpenChange true) = w /\
  effects env w (DialogOpenChange true) = [HandleOpen true].
Proof.
  intros Hr. apply reachable_consistent in Hr as [_ _ Hl _].
  split; [|done].
  unfold step, effects, exec, log, dispatch.
  rewrite handleDialogOpenChange_close. simpl.
  split_and!; try done.
  - unfold liveCount. simpl. rewrite filter_active_nil; [done|].
    intros h. by apply released_none_live.
  - exists (WriteIsRecordingRef false :: releaseLog w). split; [done|].
    simpl. intros [?|Hin]; [discriminate|].
    unfold releaseLog in Hin.
    destruct (speechRecognitionRef (card w)); simpl in Hin; intuition discriminate.
Qed.

Lemma close_stops_and_resets_witness :
  let w := (run chromeEnv
              [ClickStartRecording; RecognitionResult 0 [interim "ola"];
               SelectFolder "f1"] initialWorld).1 in
  reachable chromeEnv w /\
  listening w /\
  stopped (step chromeEnv w (DialogOpenChange false)) /\
  draftReset (step chromeEnv w (DialogOpenChange false)).
Proof.
  assert (reachable chromeEnv
            (run chromeEnv
               [ClickStartRecording; RecognitionResult 0 [interim "ola"];
                SelectFolder "f1"] initialWorld).1) as Hr
    by (do 3 apply reachable_step; apply reachable_initial).
  destruct (close_stops_and_resets chromeEnv _ Hr) as ((Hs & Hd & _) & _).
  split; [exact Hr|]. split; [reflexivity|]. split; [exact Hs|exact Hd].
Defined.

Lemma unmountCleanup_world (env : Env) (w : World) :
  step env w Unmount =
    {| card :=
         {| shouldShowOnboarding := shouldShowOnboarding (card w);
            isRecording := isRecording (card w);
            content := content (card w);
            selectedFolderId := selectedFolderId (card w);
            speechRecognitionRef := None;
            isRecordingRef := isRecordingRef (card w) |};
       recognitions := released w;
       pendingTimers := pendingTimers w |}.
Proof. unfold step, exec, dispatch. by rewrite unmountCleanup_run. Qed.

(** X5: the unmount cleanup, in any world the loop can reach, drops the handle
    and leaves no recognition object listening; it writes neither the
    recording flag nor the draft, and it removes no pending timer. *)
Theorem unmount_releases_the_handle (env : Env) (w : World) :
  reachable env w ->
  speechRecognitionRef (card (step env w Unmount)) = None /\
  liveCount (step env w Unmount) = 0 /\
  isRecordingRef (card (step env w Unmount)) = isRecordingRef (card w) /\
  isRecording (card (step env w Unmount)) = isRecording (card w) /\
  draftOf (step env w Unmount) = draftOf w /\
  pendingTimers (step env w Unmount) = pendingTimers w /\
  (forall b, ~ In (WriteIsRecordingRef b) (effects env w Unmount)).
Proof.
  intros Hr. apply reachable_consistent in Hr as [_ _ Hl _].
  rewrite unmountCleanup_world. simpl. split_and!; try done.
  - unfold liveCount. simpl. rewrite filter_active_nil; [done|].
    intros h. by apply released_none_live.
  - intros b. unfold effects, log, dispatch. rewrite unmountCleanup_run. simpl.
    unfold releaseLog.
    destruct (speechRecognitionRef (card w)); simpl; intuition discriminate.
Qed.

Lemma unmount_releases_the_handle_witness :
  let w := step chromeEnv initialWorld ClickStartRecording in
  reachable chromeEnv w /\
  speechRecognitionRef (card w) = Some 0 /\
  speechRecognitionRef (card (step chromeEnv w Unmount)) = None /\
  liveCount (step chromeEnv w Unmount) = 0.
Proof.
  assert (reachable chromeEnv (step chromeEnv initialWorld ClickStartRecording)) as Hr
    by apply reachable_step, reachable_initial.
  destruct (unmount_releases_the_handle chromeEnv _ Hr) as (Href & Hc & _).
  split; [exact Hr|]. split; [reflexivity|]. split; [exact Href|exact Hc].
Defined.

(** ** Events that arrive after the handle was dropped *)

Lemma released_held (w : World) (h : handle) (r : Recognition) :
  speechRecognitionRef (card w) = Some h ->
  recognitions w !! h = Some r ->
  released w !! h = Some (withStatus stopRequested r).
Proof.
  intros Href Hl. unfold released. rewrite Href.
  by rewrite list_lookup_alter_eq, Hl.
Qed.

Lemma delivering_stopping (w : World) (h : handle) (r : Recognition) :
  recognitions w !! h = Some r -> status r = Stopping -> delivering w h = true.
Proof. intros Hl Hs. unfold delivering. by rewrite Hl, Hs. Qed.

Lemma result_world (env : Env) (w : World) (h : handle)
    (results : list Result) (text : string) :
  delivering w h = true -> transcription results = Some text ->
  step env w (RecognitionResult h results) =
    {| card :=
         {| shouldShowOnboarding := shouldShowOnboarding (card w);
            isRecording := isRecording (card w);
            content := text;
            selectedFolderId := selectedFolderId (card w);
            speechRecognitionRef := speechRecognitionRef (card w);
            isRecordingRef := isRecordingRef (card w) |};
       recognitions := recognitions w;
       pendingTimers := pendingTimers w |}.
Proof.
  intros Hd Ht. unfold step, dispatch. rewrite exec_bind.
  unfold gets at 1 2. simpl. rewrite Hd. unfold onresult. by rewrite Ht.
Qed.

(** X6: [onresult] does not look at the recording flag.  When the object that
    listens is asked to stop, by the stop button or by closing the dialog, it
    still delivers, and a result it delivers afterwards replaces the content:
    after a close the draft holds that text again while the session stays
    stopped. *)
Theorem late_result_overwrites_after_stop
    (env : Env) (w : World) (h : handle) (results : list Result) (text : string) :
  speechRecognitionRef (card w) = Some h ->
  live w h ->
  transcription results = Some text ->
  delivering (step env w ClickStopRecording) h = true /\
  content (card (step env (step env w ClickStopRecording)
                   (RecognitionResult h results))) = text /\
  delivering (step env w (DialogOpenChange false)) h = true /\
  content (card (step env (step env w (DialogOpenChange false))
                   (RecognitionResult h results))) = text /\
  stopped (step env (step env w (DialogOpenChange false))
             (RecognitionResult h results)).
Proof.
  intros Href (r & Hl & Hs) Ht.
  pose proof (released_held w h r Href Hl) as Hrel.
  assert (delivering (step env w ClickStopRecording) h = true) as Hd1.
  { rewrite handleStopRecording_world.
    apply (delivering_stopping _ h (withStatus stopRequested r)); [done|].
    simpl. by rewrite Hs. }
  assert (delivering (step env w (DialogOpenChange false)) h = true) as Hd2.
  { unfold step, exec, dispatch. rewrite handleDialogOpenChange_close.
    apply (delivering_stopping _ h (withStatus stopRequested r)); [done|].
    simpl. by rewrite Hs. }
  split_and!; try done.
  - by rewrite (result_world env _ h results text Hd1 Ht).
  - by rewrite (result_world env _ h results text Hd2 Ht).
  - rewrite (result_world env _ h results text Hd2 Ht).
    unfold step, exec, dispatch. by rewrite handleDialogOpenChange_close.
Qed.

Lemma late_result_overwrites_after_stop_witness :
  let w := step chromeEnv initialWorld ClickStartRecording in
  speechRecognitionRef (card w) = Some 0 /\
  live w 0 /\
  transcription [final "ola mundo"] = Some "ola mundo" /\
  content (card (step chromeEnv (step chromeEnv w (DialogOpenChange false))
                   (RecognitionResult 0 [final "ola mundo"]))) = "ola mundo".
Proof.
  assert (live (step chromeEnv initialWorld ClickStartRecording) 0) as Hl
    by (exists configured; split; reflexivity).
  destruct (late_result_overwrites_after_stop chromeEnv
              (step chromeEnv initialWorld ClickStartRecording) 0
              [final "ola mundo"] "ola mundo" eq_refl Hl eq_refl)
    as (_ & _ & _ & Hc & _).
  split; [reflexivity|]. split; [exact Hl|]. split; [reflexivity|exact Hc].
Defined.

(** The world after an [end] event that finds the flag up and the restart
    timer it sets. *)
Lemma end_then_timer_world (env : Env) (w : World) (h : handle) :
  isRecordingRef (card w) = true -> delivering w h = true ->
  step env (step env w (RecognitionEnd h)) TimerFires =
    {| card :=
         {| shouldShowOnboarding := shouldShowOnboarding (card w);
            isRecording := isRecording (card w);
            content := content (card w);
            selectedFolderId := selectedFolderId (card w);
            speechRecognitionRef := Some (length (recognitions w));
            isRecordingRef := isRecordingRef (card w) |};
       recognitions :=
         match speechRecognitionRef (card w) with
         | Some h0 =>
             alter (withStatus stopRequested) h0
               (alter (withStatus (fun _ => Ended)) h (recognitions w))
         | None => alter (withStatus (fun _ => Ended)) h (recognitions w)
         end ++ [configured];
       pendingTimers := pendingTimers w |}.
Proof.
  intros Hflag Hd.
  pose proof (recognitionEnd_run_recording env w h Hflag Hd) as Hend.
  assert (step env w (RecognitionEnd h) =
            {| card := card w;
               recognitions := alter (withStatus (fun _ => Ended)) h (recognitions w);
               pendingTimers := S (pendingTimers w) |}) as ->
    by (unfold step, exec; by rewrite Hend).
  unfold step, exec. rewrite timer_run. simpl. rewrite Hflag.
  rewrite startRecognition_run. unfold released, timerTaken. simpl.
  by rewrite length_alter, Hflag.
Qed.

Lemma run_cons_world (env : Env) (e : event) (es : list event) (w : World) :
  (run env (e :: es) w).1 = (run env es (step env w e)).1.
Proof. simpl. by destruct (run env es (step env w e)). Qed.

Lemma run_cons_log (env : Env) (e : event) (es : list event) (w : World) :
  (run env (e :: es) w).2 = effects env w e ++ (run env es (step env w e)).2.
Proof. simpl. by destruct (run env es (step env w e)). Qed.

(** X7: unmounting while the session listens does not end it.  The cleanup
    leaves the flag up, so when the [end] event of the object it stopped
    arrives and the timer it sets fires, a new recognition object is made and
    started, is held by the ref and listens. *)
Theorem unmount_while_listening_restarts (env : Env) (w : World) (h : handle) :
  isRecordingRef (card w) = true ->
  speechRecognitionRef (card w) = Some h ->
  live w h ->
  let w3 := (run env [Unmount; RecognitionEnd h; TimerFires] w).1 in
  let n := length (recognitions w) in
  listening w3 /\
  speechRecognitionRef (card w3) = Some n /\
  live w3 n /\
  restarts (run env [Unmount; RecognitionEnd h; TimerFires] w).2 =
    [SetTimeout 200; RecognitionNew n; RecognitionStart n].
Proof.
  intros Hflag Href (r & Hl & Hs). cbv zeta.
  pose proof (released_held w h r Href Hl) as Hrel.
  assert (delivering (step env w Unmount) h = true) as Hd.
  { rewrite unmountCleanup_world.
    apply (delivering_stopping _ h (withStatus stopRequested r)); [done|].
    simpl. by rewrite Hs. }
  assert (isRecordingRef (card (step env w Unmount)) = true) as Hflag'
    by by rewrite unmountCleanup_world.
  assert (length (recognitions (step env w Unmount)) = length (recognitions w)) as Hlen.
  { rewrite unmountCleanup_world. simpl. apply length_released. }
  rewrite !run_cons_world, !run_cons_log. simpl run. cbn [fst snd].
  rewrite app_nil_r.
  rewrite (end_then_timer_world env _ h Hflag' Hd). simpl.
  rewrite Hlen. split_and!; try done.
  - rewrite unmountCleanup_world. simpl.
    exists configured. split; [|done]. apply lookup_snoc_Some. right.
    by rewrite length_alter, length_released.
  - assert (step env (step env w Unmount) (RecognitionEnd h) =
              {| card := card (step env w Unmount);
                 recognitions :=
                   alter (withStatus (fun _ => Ended)) h
                     (recognitions (step env w Unmount));
                 pendingTimers := S (pendingTimers (step env w Unmount)) |}) as Hw2.
    { unfold step at 1, exec.
      by rewrite (recognitionEnd_run_recording env _ h Hflag' Hd). }
    assert (effects env (step env w Unmount) (RecognitionEnd h) = [SetTimeout 200]) as ->.
    { unfold effects, log.
      by rewrite (recognitionEnd_run_recording env _ h Hflag' Hd). }
    assert (effects env w Unmount = releaseLog w) as ->.
    { unfold effects, log, dispatch. by rewrite unmountCleanup_run. }
    rewrite Hw2. unfold effects, log. rewrite timer_run.
    cbn [pendingTimers card]. rewrite Hflag', startRecognition_run. cbn [snd].
    unfold restarts. rewrite !filter_app.
    unfold releaseLog at 1. rewrite Href.
    unfold releaseLog, timerTaken. cbn [card recognitions].
    rewrite length_alter, Hlen.
    rewrite unmountCleanup_world. cbn [card speechRecognitionRef]. done.
Qed.

Lemma unmount_while_listening_restarts_witness :
  let w := step chromeEnv initialWorld ClickStartRecording in
  isRecordingRef (card w) = true /\
  speechRecognitionRef (card w) = Some 0 /\
  live w 0 /\
  live (run chromeEnv [Unmount; RecognitionEnd 0; TimerFires] w).1 1.
Proof.
  assert (live (step chromeEnv initialWorld ClickStartRecording) 0) as Hl
    by (exists configured; split; reflexivity).
  destruct (unmount_while_listening_restarts chromeEnv
              (step chromeEnv initialWorld ClickStartRecording) 0
              eq_refl eq_refl Hl) as (_ & _ & Hlive & _).
  split; [reflexivity|]. split; [reflexivity|]. split; [exact Hl|exact Hlive].
Defined.

(** ** A recognition object that ends late *)

(** X8: while the session listens through one object, the [end] event of
    another object that still delivers (one that was stopped and replaced)
    finds the flag up as well: its timer stops the listening object and
    starts a fresh one.  Afterwards the session listens through the fresh
    object while the one just stopped still delivers, so its [end] event will
    do the same again. *)
Theorem late_end_replaces_the_listening_object
    (env : Env) (w : World) (h0 h1 : handle) :
  isRecordingRef (card w) = true ->
  speechRecognitionRef (card w) = Some h1 ->
  live w h1 ->
  delivering w h0 = true ->
  h0 <> h1 ->
  let w' := step env (step env w (RecognitionEnd h0)) TimerFires in
  let n := length (recognitions w) in
  isRecordingRef (card w') = true /\
  speechRecognitionRef (card w') = Some n /\
  live w' n /\
  delivering w' h1 = true /\
  h1 <> n /\
  delivering w' h0 = false.
Proof.
  intros Hflag Href (r1 & Hl1 & Hs1) Hd Hne. cbv zeta.
  rewrite (end_then_timer_world env w h0 Hflag Hd). rewrite Href.
  pose proof (lookup_lt_Some _ _ _ Hl1) as Hlt.
  assert (Hl1' :
    alter (withStatus stopRequested) h1
      (alter (withStatus (fun _ => Ended)) h0 (recognitions w)) !! h1 =
    Some (withStatus stopRequested r1)).
  { rewrite list_lookup_alter_eq, list_lookup_alter_ne by done. by rewrite Hl1. }
  simpl. split_and!; try done.
  - exists configured. split; [|done]. apply lookup_snoc_Some. right.
    by rewrite !length_alter.
  - apply (delivering_stopping _ h1 (withStatus stopRequested r1)).
    + simpl. by apply lookup_app_l_Some.
    + simpl. by rewrite Hs1.
  - lia.
  - unfold delivering in *. simpl.
    destruct (recognitions w !! h0) as [r0|] eqn:Hl0; [|done].
    rewrite (lookup_app_l_Some _ _ _ (withStatus (fun _ => Ended) r0)); [done|].
    rewrite list_lookup_alter_ne by done.
    by rewrite list_lookup_alter_eq, Hl0.
Qed.

Lemma late_end_replaces_the_listening_object_witness :
  let w := (run chromeEnv
              [ClickStartRecording; ClickStopRecording; ClickStartRecording]
              initialWorld).1 in
  let w' := step chromeEnv (step chromeEnv w (RecognitionEnd 0)) TimerFires in
  isRecordingRef (card w) = true /\
  speechRecognitionRef (card w) = Some 1 /\
  live w 1 /\
  delivering w 0 = true /\
  speechRecognitionRef (card w') = Some 2 /\
  live w' 2 /\
  delivering w' 1 = true.
Proof.
  assert (live (run chromeEnv
                  [ClickStartRecording; ClickStopRecording; ClickStartRecording]
                  initialWorld).1 1) as Hl
    by (exists configured; split; reflexivity).
  assert (0 <> 1) as Hne by discriminate.
  destruct (late_end_replaces_the_listening_object chromeEnv
              (run chromeEnv
                 [ClickStartRecording; ClickStopRecording; ClickStartRecording]
                 initialWorld).1 0 1 eq_refl eq_refl Hl eq_refl Hne)
    as (_ & Href & Hlive & Hd & _).
  split; [reflexivity|]. split; [reflexivity|]. split; [exact Hl|].
  split; [reflexivity|]. split; [exact Href|]. split; [exact Hlive|exact Hd].
Defined.

(** ** Typing while dictating *)

(** X9: [onresult] does not hide the onboarding text.  When the textarea is
    emptied while an object delivers, the onboarding text comes back, and the
    next result fills the content while the onboarding text is shown and the
    textarea is not rendered. *)
Theorem result_after_emptying_keeps_onboarding
    (env : Env) (folders : option (list Folder.t)) (w : World) (h : handle)
    (results : list Result) (text : string) :
  delivering w h = true ->
  transcription results = Some text ->
  let w' := step env (step env w (ChangeContent "")) (RecognitionResult h results) in
  shouldShowOnboarding (card w') = true /\
  content (card w') = text /\
  textareaShown (render folders (card w')) = false.
Proof.
  intros Hd Ht. cbv zeta.
  assert (delivering (step env w (ChangeContent "")) h = true) as Hd' by exact Hd.
  rewrite (result_world env _ h results text Hd' Ht). done.
Qed.

Lemma result_after_emptying_keeps_onboarding_witness :
  let w := (run chromeEnv [ClickStartRecording; RecognitionResult 0 [interim "ola"]]
              initialWorld).1 in
  let w' := step chromeEnv (step chromeEnv w (ChangeContent ""))
              (RecognitionResult 0 [interim "ola mundo"]) in
  delivering w 0 = true /\
  transcription [interim "ola mundo"] = Some "ola mundo" /\
  shouldShowOnboarding (card w') = true /\
  content (card w') = "ola mundo".
Proof.
  destruct (result_after_emptying_keeps_onboarding chromeEnv sampleFolders
              (run chromeEnv [ClickStartRecording; RecognitionResult 0 [interim "ola"]]
                 initialWorld).1 0 [interim "ola mundo"] "ola mundo"
              eq_refl eq_refl) as (Ho & Hc & _).
  split; [reflexivity|]. split; [reflexivity|]. split; [exact Ho|exact Hc].
Defined.

(** ** The reducer of [onresult] *)

Lemma fold_appendFirst_from (results : list Result) :
  forall acc : string,
    fold_left appendFirst results (Some acc) =
      String.app acc <$> transcription results.
Proof.
  unfold transcription.
  induction results as [|r results IH]; intros acc.
  - simpl. by rewrite string_app_nil_r.
  - simpl. destruct (alternatives r !! 0) as [a|].
    + rewrite (IH (acc +:+ transcript a)), (IH ("" +:+ transcript a)).
      destruct (fold_left appendFirst results (Some "")) as [t|]; simpl; [|done].
      by rewrite string_app_assoc.
    + by rewrite fold_appendFirst_thrown.
Qed.

(** X10: the transcript of a longer result list is the transcript of its
    front followed by that of its back; it exists only when both exist.  So a
    result event that carries the earlier segments and some new ones extends
    the earlier text. *)
Theorem transcription_app (front back : list Result) :
  transcription (front ++ back) =
    match transcription front, transcription back with
    | Some a, Some b => Some (a +:+ b)
    | _, _ => None
    end.
Proof.
  unfold transcription at 1. rewrite fold_left_app.
  fold (transcription front).
  destruct (transcription front) as [a|].
  - rewrite fold_appendFirst_from. by destruct (transcription back).
  - by rewrite fold_appendFirst_thrown.
Qed.

Lemma fold_appendFirst_None (results : list Result) :
  forall acc : string,
    fold_left appendFirst results (Some acc) = None <->
    Exists (fun r => alternatives r = []) results.
Proof.
  induction results as [|r results IH]; intros acc.
  - simpl. split; [done|]. by intros ?%Exists_nil.
  - simpl. rewrite Exists_cons.
    destruct (alternatives r) as [|a alts] eqn:Ha; simpl.
    + rewrite fold_appendFirst_thrown. split; [by left|done].
    + rewrite IH. split; [by right|]. by intros [?|?].
Qed.

(** X11: the reducer throws exactly when some result of the event has no
    alternative; the handler then stops before [setContent], so the world is
    the one before the event. *)
Theorem result_without_alternative_changes_nothing
    (env : Env) (w : World) (h : handle) (results : list Result) :
  (transcription results = None <->
     Exists (fun r => alternatives r = []) results) /\
  (delivering w h = true ->
   Exists (fun r => alternatives r = []) results ->
   step env w (RecognitionResult h results) = w /\
   effects env w (RecognitionResult h results) = [UncaughtTypeError]).
Proof.
  split; [apply fold_appendFirst_None|].
  intros Hd Hex. apply (fold_appendFirst_None results "") in Hex.
  fold (transcription results) in Hex.
  unfold step, effects, dispatch.
  rewrite exec_bind, log_bind. unfold gets at 1 2 3 4. simpl.
  rewrite Hd. unfold onresult. by rewrite Hex.
Qed.

Lemma result_without_alternative_changes_nothing_witness :
  let w := (run chromeEnv [ClickStartRecording; RecognitionResult 0 [final "ola"]]
              initialWorld).1 in
  let results := [final "ola"; {| alternatives := []; isFinal := false |}] in
  delivering w 0 = true /\
  Exists (fun r => alternatives r = []) results /\
  step chromeEnv w (RecognitionResult 0 results) = w /\
  content (card w) = "ola".
Proof.
  assert (Exists (fun r => alternatives r = [])
            [final "ola"; {| alternatives := []; isFinal := false |}]) as Hex
    by (apply Exists_cons_tl, Exists_cons_hd; reflexivity).
  destruct (result_without_alternative_changes_nothing chromeEnv
              (run chromeEnv [ClickStartRecording; RecognitionResult 0 [final "ola"]]
                 initialWorld).1 0
              [final "ola"; {| alternatives := []; isFinal := false |}])
    as (_ & Hstep).
  destruct (Hstep eq_refl Hex) as (Hw & _).
  split; [reflexivity|]. split; [exact Hex|]. split; [exact Hw|reflexivity].
Defined.

(** ** The life of a recognition object *)

(** What a task can do to the list of recognition objects. *)
Lemma recognitions_step (env : Env) (w : World) (e : event) :
  recognitions (step env w e) = recognitions w \/
  recognitions (step env w e) = released w \/
  recognitions (step env w e) = released w ++ [configured] \/
  exists h, recognitions (step env w e) =
              alter (withStatus (fun _ => Ended)) h (recognitions w).
Proof.
  destruct e as [|v|  | | |b|v| |h rs|h|h| ].
  - by left.
  - left. unfold_handlers. simpl. by case_decide.
  - left. unfold step, exec, dispatch.
    destruct (decide (content (card w) = "")) as [He|He].
    + by rewrite handleSaveNote_empty.
    + by rewrite handleSaveNote_filled.
  - destruct (isSpeechRecognitionAPIAvailable env) eqn:Ha.
    + right. right. left. by rewrite handleStartRecording_world.
    + left. unfold step, dispatch, handleStartRecording. by rewrite Ha.
  - right. left. by rewrite handleStopRecording_world.
  - destruct b; [by left|]. right. left.
    unfold step, exec, dispatch. by rewrite handleDialogOpenChange_close.
  - by left.
  - right. left. by rewrite unmountCleanup_world.
  - left. unfold_handlers. simpl. destruct (delivering w h); [|done].
    by destruct (transcription rs).
  - left. unfold_handlers. simpl. destruct (delivering w h); [|done]. simpl.
    by destruct (isRecordingRef (card w)).
  - unfold_handlers. simpl. destruct (delivering w h); [|by left]. simpl.
    right. right. right. exists h.
    by destruct (isRecordingRef (card w)).
  - unfold step, exec. rewrite timer_run.
    destruct (pendingTimers w); [by left|].
    destruct (isRecordingRef (card w)); [|by left].
    right. right. left. by rewrite startRecognition_run.
Qed.

(** A status change that only moves forward keeps every object in place,
    with its settings, at the same or a later status. *)
Lemma lookup_alter_advanced (f : Status -> Status) (h0 h : handle)
    (recs : list Recognition) (r : Recognition) :
  (forall s, rank s <= rank (f s)) ->
  recs !! h = Some r ->
  exists r', alter (withStatus f) h0 recs !! h = Some r' /\
    rank (status r) <= rank (status r') /\
    lang r' = lang r /\ continuous r' = continuous r /\
    maxAlternatives r' = maxAlternatives r /\
    interimResults r' = interimResults r.
Proof.
  intros Hf Hl. rewrite list_lookup_alter. case_decide as Hh.
  - subst h0. rewrite Hl. simpl. eexists. split; [done|].
    simpl. split_and!; try done; apply Hf.
  - exists r. split; [done|]. split_and!; try done.
Qed.

Lemma rank_stopRequested (s : Status) : rank s <= rank (stopRequested s).
Proof. destruct s; simpl; lia. Qed.

Lemma rank_ended (s : Status) : rank s <= rank Ended.
Proof. destruct s; simpl; lia. Qed.

Lemma lookup_released_advanced (w : World) (h : handle) (r : Recognition) :
  recognitions w !! h = Some r ->
  exists r', released w !! h = Some r' /\
    rank (status r) <= rank (status r') /\
    lang r' = lang r /\ continuous r' = continuous r /\
    maxAlternatives r' = maxAlternatives r /\
    interimResults r' = interimResults r.
Proof.
  intros Hl. unfold released.
  destruct (speechRecognitionRef (card w)) as [h0|].
  - by apply lookup_alter_advanced; [apply rank_stopRequested|].
  - exists r. split; [done|]. split_and!; try done.
Qed.

(** The handles a log starts. *)
Lemma startRecognition_starts_fresh (w : World) (h : handle) :
  In (RecognitionStart h) (log startRecognition w) -> h = length (recognitions w).
Proof.
  unfold log. rewrite startRecognition_run. simpl. rewrite in_app_iff.
  intros [Hin|Hin].
  - unfold releaseLog in Hin.
    destruct (speechRecognitionRef (card w)); simpl in Hin; intuition discriminate.
  - simpl in Hin. destruct Hin as [?|[?|[Heq|[]]]]; try discriminate.
    by injection Heq.
Qed.

Lemma releaseLog_starts_nothing (w : World) (h : handle) :
  ~ In (RecognitionStart h) (releaseLog w).
Proof.
  unfold releaseLog.
  destruct (speechRecognitionRef (card w)); simpl; intuition discriminate.
Qed.

Lemma effects_start_fresh (env : Env) (w : World) (e : event) (h : handle) :
  In (RecognitionStart h) (effects env w e) -> h = length (recognitions w).
Proof.
  destruct e as [|v|  | | |b|v| |h' rs|h'|h'| ].
  - unfold_handlers. simpl. done.
  - unfold_handlers. simpl. case_decide; simpl; done.
  - unfold effects, log, dispatch.
    destruct (decide (content (card w) = "")) as [He|He].
    + rewrite handleSaveNote_empty by done. simpl. intuition discriminate.
    + rewrite handleSaveNote_filled by done. simpl. intuition discriminate.
  - unfold effects, dispatch, handleStartRecording.
    destruct (negb (isSpeechRecognitionAPIAvailable env)).
    + simpl. intuition discriminate.
    + rewrite !log_bind, !in_app_iff.
      intros [Hin|[Hin|[Hin|[Hin|Hin]]]].
      * done.
      * simpl in Hin. intuition discriminate.
      * done.
      * by apply startRecognition_starts_fresh in Hin.
      * unfold braveAdvisory in Hin. destruct (brave env) as [|[]|]; simpl in Hin;
          intuition discriminate.
  - unfold effects, log, dispatch. rewrite handleStopRecording_run. simpl.
    intros [?|Hin]; [discriminate|]. by apply releaseLog_starts_nothing in Hin.
  - destruct b; [unfold_handlers; simpl; intuition discriminate|].
    unfold effects, log, dispatch. rewrite handleDialogOpenChange_close. simpl.
    rewrite in_app_iff. intros [?|[Hin|Hin]]; [discriminate| |].
    + by apply releaseLog_starts_nothing in Hin.
    + simpl in Hin. intuition discriminate.
  - unfold_handlers. simpl. done.
  - unfold effects, log, dispatch. rewrite unmountCleanup_run. simpl.
    intros Hin. by apply releaseLog_starts_nothing in Hin.
  - unfold_handlers. simpl. destruct (delivering w h'); simpl; [|done].
    destruct (transcription rs); simpl; intuition discriminate.
  - unfold_handlers. simpl. destruct (delivering w h'); simpl; [|done].
    destruct (isRecordingRef (card w)); simpl; intuition discriminate.
  - unfold_handlers. simpl. destruct (delivering w h'); simpl; [|done].
    destruct (isRecordingRef (card w)); simpl; intuition discriminate.
  - unfold effects, log. rewrite timer_run.
    destruct (pendingTimers w); [done|].
    destruct (isRecordingRef (card w)); [|done].
    intros Hin. by apply (startRecognition_starts_fresh (timerTaken w)) in Hin.
Qed.

(** X12: no task removes or reconfigures a recognition object or moves it
    back in its life: every object stays at its handle with its settings, at
    the same or a later status, so an ended object stays ended; and the only
    object a task ever starts is the one it has just created, at the next
    free handle. *)
Theorem recognition_objects_only_advance
    (env : Env) (w : World) (e : event) (h : handle) (r : Recognition) :
  recognitions w !! h = Some r ->
  (exists r', recognitions (step env w e) !! h = Some r' /\
     rank (status r) <= rank (status r') /\
     lang r' = lang r /\ continuous r' = continuous r /\
     maxAlternatives r' = maxAlternatives r /\
     interimResults r' = interimResults r) /\
  (status r = Ended ->
   exists r', recognitions (step env w e) !! h = Some r' /\ status r' = Ended) /\
  (forall h', In (RecognitionStart h') (effects env w e) -> h' <> h).
Proof.
  intros Hl.
  assert (Hadv : exists r', recognitions (step env w e) !! h = Some r' /\
     rank (status r) <= rank (status r') /\
     lang r' = lang r /\ continuous r' = continuous r /\
     maxAlternatives r' = maxAlternatives r /\
     interimResults r' = interimResults r).
  { destruct (recognitions_step env w e) as [->|[->|[->|[h0 ->]]]].
    - exists r. split; [done|]. split_and!; try done.
    - by apply lookup_released_advanced.
    - destruct (lookup_released_advanced w h r Hl) as (r' & Hl' & Hrest).
      exists r'. split; [|done]. by apply lookup_app_l_Some.
    - by apply lookup_alter_advanced; [apply rank_ended|]. }
  split; [exact Hadv|]. split.
  - intros Hs. destruct Hadv as (r' & Hl' & Hrank & _).
    exists r'. split; [done|]. rewrite Hs in Hrank.
    destruct (status r'); simpl in Hrank; try lia. done.
  - intros h' Hin ->. apply effects_start_fresh in Hin.
    apply lookup_lt_Some in Hl. lia.
Qed.

Lemma recognition_objects_only_advance_witness :
  let w := (run chromeEnv [ClickStartRecording; RecognitionEnd 0] initialWorld).1 in
  recognitions w !! 0 =
    Some {| lang := "pt-BR"; continuous := true; maxAlternatives := 1;
            interimResults := true; status := Ended |} /\
  exists r', recognitions (step chromeEnv w TimerFires) !! 0 = Some r' /\
             status r' = Ended.
Proof.
  destruct (recognition_objects_only_advance chromeEnv
              (run chromeEnv [ClickStartRecording; RecognitionEnd 0] initialWorld).1
              TimerFires 0
              {| lang := "pt-BR"; continuous := true; maxAlternatives := 1;
                 interimResults := true; status := Ended |} eq_refl)
    as (_ & Hended & _).
  split; [reflexivity|]. exact (Hended eq_refl).
Defined.

(** ** Calls of the creation callback over a run *)

Lemma callbackCalls_nil (t : list Effect) :
  (forall text f, ~ In (OnNoteCreated text f) t) -> callbackCalls t = [].
Proof.
  unfold callbackCalls. induction t as [|x t IH]; intros Hno; [done|].
  rewrite filter_cons_False.
  - apply IH. intros text f Hin. apply (Hno text f). by right.
  - destruct x; simpl; try done. exfalso. eapply Hno. by left.
Qed.

Lemma callbackCalls_step (env : Env) (w : World) (e : event) :
  length (callbackCalls (effects env w e)) <= (if isSave e then 1 else 0).
Proof.
  destruct (isSave e) eqn:Hsave.
  - destruct e; try discriminate.
    unfold effects, log, dispatch.
    destruct (decide (content (card w) = "")) as [He|He].
    + rewrite handleSaveNote_empty by done. simpl. lia.
    + rewrite handleSaveNote_filled by done. simpl. lia.
  - rewrite callbackCalls_nil; [simpl; lia|].
    intros text f Hin. apply callback_only_on_save in Hin as (-> & _).
    discriminate.
Qed.

Lemma callback_text_not_blank (env : Env) (w : World) (e : event)
    (text : string) (f : option string) :
  In (OnNoteCreated text f) (effects env w e) -> text <> "".
Proof.
  intros Hin. pose proof Hin as (-> & -> & _)%callback_only_on_save.
  unfold effects, log, dispatch in Hin.
  destruct (decide (content (card w) = "")) as [He|He]; [|done].
  rewrite handleSaveNote_empty in Hin by done. simpl in Hin.
  intuition discriminate.
Qed.

(** X13: over any run from any world, the creation callback is called at
    most once per click on "save", and never with an empty text. *)
Theorem callback_at_most_once_per_save (env : Env) (es : list event) (w : World) :
  length (callbackCalls (run env es w).2) <=
    length (filter (fun e => isSave e = true) es) /\
  (forall text f, In (OnNoteCreated text f) (run env es w).2 -> text <> "").
Proof.
  revert w. induction es as [|e es IH]; intros w.
  - simpl. split; [lia|]. intros text f [].
  - rewrite run_cons_log. destruct (IH (step env w e)) as [IHlen IHtext].
    split.
    + unfold callbackCalls in *. rewrite filter_app, length_app.
      pose proof (callbackCalls_step env w e) as Hstep.
      unfold callbackCalls in Hstep.
      destruct (isSave e) eqn:Hs.
      * rewrite filter_cons_True by done. simpl. lia.
      * rewrite filter_cons_False by (simpl; by rewrite Hs). lia.
    + intros text f [Hin|Hin]%in_app_iff.
      * by apply callback_text_not_blank in Hin.
      * by apply IHtext in Hin.
Qed.

(** ** Who writes what *)

Lemma releaseLog_no_flag_write (w : World) (b : bool) :
  ~ In (WriteIsRecordingRef b) (releaseLog w).
Proof.
  unfold releaseLog.
  destruct (speechRecognitionRef (card w)); simpl; intuition discriminate.
Qed.

(** X14: the recording flag in the ref is written by three tasks only: a
    click on "start", a click on "stop" and a request to close the dialog.
    Every other task (results, errors, ends, timers, edits, saves, unmount)
    leaves the flag as it is and logs no write to it. *)
Theorem flag_written_only_by_start_stop_close (env : Env) (w : World) (e : event) :
  e <> ClickStartRecording ->
  e <> ClickStopRecording ->
  e <> DialogOpenChange false ->
  isRecordingRef (card (step env w e)) = isRecordingRef (card w) /\
  (forall b, ~ In (WriteIsRecordingRef b) (effects env w e)).
Proof.
  intros Hstart Hstop Hclose.
  destruct e as [|v|  | | |b|v| |h rs|h|h| ]; try done.
  - unfold_handlers. simpl. split; [done|]. intros b. simpl. tauto.
  - unfold_handlers. simpl. case_decide; simpl; (split; [done|]); intros b; tauto.
  - unfold step, effects, exec, log, dispatch.
    destruct (decide (content (card w) = "")) as [He|He].
    + rewrite handleSaveNote_empty by done. simpl. split; [done|].
      intros b. intuition discriminate.
    + rewrite handleSaveNote_filled by done. simpl. split; [done|].
      intros b. intuition discriminate.
  - destruct b; [|done]. unfold_handlers. simpl. split; [done|].
    intros b. intuition discriminate.
  - unfold_handlers. simpl. split; [done|]. intros b. tauto.
  - rewrite unmountCleanup_world. split; [done|]. intros b.
    unfold effects, log, dispatch. rewrite unmountCleanup_run. simpl.
    apply releaseLog_no_flag_write.
  - unfold_handlers. simpl. destruct (delivering w h); simpl.
    + destruct (transcription rs); simpl; (split; [done|]); intros b;
        intuition discriminate.
    + split; [done|]. intros b. tauto.
  - unfold_handlers. simpl. destruct (delivering w h); simpl.
    + destruct (isRecordingRef (card w)) eqn:Hflag; simpl;
        (split; [by rewrite ?Hflag|]); intros b; intuition discriminate.
    + split; [done|]. intros b. tauto.
  - unfold_handlers. simpl. destruct (delivering w h); simpl.
    + destruct (isRecordingRef (card w)) eqn:Hflag; simpl;
        (split; [by rewrite ?Hflag|]); intros b; intuition discriminate.
    + split; [done|]. intros b. tauto.
  - unfold step, effects, exec, log. rewrite timer_run.
    destruct (pendingTimers w); [split; [done|]; intros b; simpl; tauto|].
    destruct (isRecordingRef (card w)) eqn:Hflag.
    + rewrite startRecognition_run. simpl. split; [done|].
      intros b [Hin|Hin]%in_app_iff.
      * by apply releaseLog_no_flag_write in Hin.
      * simpl in Hin. intuition discriminate.
    + simpl. split; [done|]. intros b. tauto.
Qed.

Lemma flag_written_only_by_start_stop_close_witness :
  let w := step chromeEnv initialWorld ClickStartRecording in
  RecognitionEnd 0 <> ClickStartRecording /\
  isRecordingRef (card w) = true /\
  isRecordingRef (card (step chromeEnv w (RecognitionEnd 0))) = isRecordingRef (card w).
Proof.
  assert (RecognitionEnd 0 <> ClickStartRecording) as H1 by discriminate.
  assert (RecognitionEnd 0 <> ClickStopRecording) as H2 by discriminate.
  assert (RecognitionEnd 0 <> DialogOpenChange false) as H3 by discriminate.
  destruct (flag_written_only_by_start_stop_close chromeEnv
              (step chromeEnv initialWorld ClickStartRecording)
              (RecognitionEnd 0) H1 H2 H3) as (Hflag & _).
  split; [exact H1|]. split; [reflexivity|exact Hflag].
Defined.

(** X15: the tasks of the session machinery leave the draft alone: a click on
    "stop", the unmount cleanup, an [error] event, an [end] event and a
    restart timer change neither the content nor the folder nor the
    onboarding flag. *)
Theorem session_tasks_keep_the_draft (env : Env) (w : World) (h : handle) :
  draftOf (step env w ClickStopRecording) = draftOf w /\
  draftOf (step env w Unmount) = draftOf w /\
  draftOf (step env w (RecognitionError h)) = draftOf w /\
  draftOf (step env w (RecognitionEnd h)) = draftOf w /\
  draftOf (step env w TimerFires) = draftOf w.
Proof.
  split_and!.
  - by rewrite handleStopRecording_world.
  - by rewrite unmountCleanup_world.
  - unfold_handlers. simpl. destruct (delivering w h); [|done]. simpl.
    by destruct (isRecordingRef (card w)).
  - unfold_handlers. simpl. destruct (delivering w h); [|done]. simpl.
    by destruct (isRecordingRef (card w)).
  - unfold step, exec. rewrite timer_run.
    destruct (pendingTimers w); [done|].
    destruct (isRecordingRef (card w)); [|done].
    by rewrite startRecognition_run.
Qed.

(** ** The card through its rendered controls *)

Lemma uiReachable_reachable (env : Env) (folders : option (list Folder.t)) (w : World) :
  uiReachable env folders w -> reachable env w.
Proof. induction 1; by constructor. Qed.

(** X16: the bottom button follows the session.  In every world the loop can
    reach, the stop button is rendered exactly when the session listens, and
    wherever the save button is rendered the session is stopped and no
    recognition object listens: a save cannot happen during dictation. *)
Theorem save_button_only_when_stopped
    (env : Env) (folders : option (list Folder.t)) (w : World) :
  reachable env w ->
  (stopButtonShown (render folders (card w)) = true <-> listening w) /\
  (saveButtonShown (render folders (card w)) = true ->
   stopped w /\ liveCount w = 0) /\
  saveButtonShown (render folders (card w)) =
    negb (stopButtonShown (render folders (card w))).
Proof.
  intros Hr. apply reachable_consistent in Hr as [Hb Hh Hl _].
  unfold listening, stopped. simpl. rewrite Hb.
  split; [done|]. split; [|done].
  intros Hflag%negb_true_iff.
  assert (speechRecognitionRef (card w) = None) as Href.
  { destruct (speechRecognitionRef (card w)) as [h|] eqn:Href; [|done].
    specialize (Hh h eq_refl). congruence. }
  split_and!; try done.
  unfold liveCount. rewrite filter_active_nil; [done|].
  intros h Hlive. apply Hl in Hlive. congruence.
Qed.

Lemma save_button_only_when_stopped_witness :
  let w := (run chromeEnv [ClickStartRecording; ClickStopRecording] initialWorld).1 in
  reachable chromeEnv w /\
  saveButtonShown (render sampleFolders (card w)) = true /\
  stopped w /\ liveCount w = 0.
Proof.
  assert (reachable chromeEnv
            (run chromeEnv [ClickStartRecording; ClickStopRecording] initialWorld).1)
    as Hr by (do 2 apply reachable_step; apply reachable_initial).
  destruct (save_button_only_when_stopped chromeEnv sampleFolders _ Hr)
    as (_ & Hsave & _).
  split; [exact Hr|]. split; [reflexivity|]. exact (Hsave eq_refl).
Defined.

(** X17: without the capability the card is a plain text editor.  Through
    the rendered controls, no recognition object is ever created and no
    timer is ever set, the session is always stopped, and the onboarding text
    is shown only while the content is empty. *)
Theorem without_capability_plain_editor
    (env : Env) (folders : option (list Folder.t)) (w : World) :
  isSpeechRecognitionAPIAvailable env = false ->
  uiReachable env folders w ->
  recognitions w = [] /\
  pendingTimers w = 0 /\
  stopped w /\
  (shouldShowOnboarding (card w) = true -> content (card w) = "").
Proof.
  intros Ha Hr.
  induction Hr as [|w e _ (Hrecs & Htimers & (Hflag & Hrec & Href) & Hdraft) Hen];
    [by repeat split|].
  destruct (released_nothing_held w Href) as [Hrel Hlog].
  assert (forall h, delivering w h = false) as Hnone
    by (intros h; unfold delivering; by rewrite Hrecs).
  destruct e as [|v|  | | |b|v| |h rs|h|h| ]; simpl in Hen.
  - unfold_handlers. simpl. by repeat split.
  - apply negb_true_iff in Hen.
    unfold_handlers. simpl. case_decide; simpl; repeat split; try done.
    congruence.
  - unfold step, exec, dispatch.
    destruct (decide (content (card w) = "")) as [He|He].
    + rewrite handleSaveNote_empty by done. by repeat split.
    + rewrite handleSaveNote_filled by done. by repeat split.
  - unfold step, dispatch, handleStartRecording. rewrite Ha. simpl.
    by repeat split.
  - rewrite handleStopRecording_world, Hrel. simpl. by repeat split.
  - destruct b; [unfold_handlers; simpl; by repeat split|].
    unfold step, exec, dispatch. rewrite handleDialogOpenChange_close, Hrel.
    by repeat split.
  - unfold_handlers. simpl. by repeat split.
  - rewrite unmountCleanup_world, Hrel. simpl. by repeat split.
  - by rewrite Hnone in Hen.
  - by rewrite Hnone in Hen.
  - by rewrite Hnone in Hen.
  - apply bool_decide_eq_true in Hen. done.
Qed.

Lemma without_capability_plain_editor_witness :
  let w := (run noSpeechEnv
              [ClickStartRecording; ClickStartEditor; ChangeContent "nota"]
              initialWorld).1 in
  isSpeechRecognitionAPIAvailable noSpeechEnv = false /\
  uiReachable noSpeechEnv sampleFolders w /\
  recognitions w = [] /\
  content (card w) = "nota" /\
  shouldShowOnboarding (card w) = false.
Proof.
  assert (uiReachable noSpeechEnv sampleFolders
            (run noSpeechEnv
               [ClickStartRecording; ClickStartEditor; ChangeContent "nota"]
               initialWorld).1) as Hr.
  { apply (uiReachable_step noSpeechEnv sampleFolders
             (run noSpeechEnv [ClickStartRecording; ClickStartEditor] initialWorld).1
             (ChangeContent "nota")); [|reflexivity].
    apply (uiReachable_step noSpeechEnv sampleFolders
             (run noSpeechEnv [ClickStartRecording] initialWorld).1
             ClickStartEditor); [|reflexivity].
    apply (uiReachable_step noSpeechEnv sampleFolders initialWorld
             ClickStartRecording); [|reflexivity].
    apply uiReachable_initial. }
  destruct (without_capability_plain_editor noSpeechEnv sampleFolders _ eq_refl Hr)
    as (Hrecs & _).
  split; [reflexivity|]. split; [exact Hr|]. split; [exact Hrecs|].
  split; reflexivity.
Defined.

(** ** The folder [select] *)

(** What a task can do to the selected folder. *)
Lemma selectedFolderId_step (env : Env) (w : World) (e : event) :
  selectedFolderId (card (step env w e)) = selectedFolderId (card w) \/
  selectedFolderId (card (step env w e)) = None \/
  exists v, e = SelectFolder v /\ v <> "" /\
            selectedFolderId (card (step env w e)) = Some v.
Proof.
  destruct e as [|v|  | | |b|v| |h rs|h|h| ].
  - by left.
  - left. unfold_handlers. simpl. by case_decide.
  - unfold step, exec, dispatch.
    destruct (decide (content (card w) = "")) as [He|He].
    + left. by rewrite handleSaveNote_empty.
    + right. left. by rewrite handleSaveNote_filled.
  - left. destruct (isSpeechRecognitionAPIAvailable env) eqn:Ha.
    + by rewrite handleStartRecording_world.
    + unfold step, dispatch, handleStartRecording. by rewrite Ha.
  - left. by rewrite handleStopRecording_world.
  - destruct b; [by left|]. right. left.
    unfold step, exec, dispatch. by rewrite handleDialogOpenChange_close.
  - unfold_handlers. simpl. case_decide.
    + by right; left.
    + right. right. by exists v.
  - left. by rewrite unmountCleanup_world.
  - left. unfold_handlers. simpl. destruct (delivering w h); [|done].
    by destruct (transcription rs).
  - left. unfold_handlers. simpl. destruct (delivering w h); [|done]. simpl.
    by destruct (isRecordingRef (card w)).
  - left. unfold_handlers. simpl. destruct (delivering w h); [|done]. simpl.
    by destruct (isRecordingRef (card w)).
  - left. unfold step, exec. rewrite timer_run.
    destruct (pendingTimers w); [done|].
    destruct (isRecordingRef (card w)); [|done].
    by rewrite startRecognition_run.
Qed.

(** X18: through the rendered controls, with a fixed [folders] prop, the
    selected folder is always absent or the non-empty id of one of the listed
    folders, and so is the folder the creation callback receives. *)
Theorem selected_folder_is_listed
    (env : Env) (folders : option (list Folder.t)) (w : World) :
  uiReachable env folders w ->
  listed folders (selectedFolderId (card w)) /\
  (forall e text f,
     In (OnNoteCreated text f) (effects env w e) -> listed folders f).
Proof.
  intros Hr.
  assert (listed folders (selectedFolderId (card w))) as Hlisted.
  { induction Hr as [|w e _ IH Hen]; [by left|].
    destruct (selectedFolderId_step env w e) as [->|[->|(v & -> & Hv & ->)]];
      [done|by left|].
    simpl in Hen. apply andb_true_iff in Hen as [_ Hin].
    apply bool_decide_eq_true in Hin.
    apply elem_of_cons in Hin as [->|Hin]; [done|].
    apply list_elem_of_fmap in Hin as (x & -> & Hx).
    right. by exists x. }
  split; [done|].
  intros e text f Hin. by apply callback_only_on_save in Hin as (_ & _ & ->).
Qed.

Lemma selected_folder_is_listed_witness :
  let w := (run chromeEnv [ClickStartEditor; ChangeContent "nota"; SelectFolder "f2"]
              initialWorld).1 in
  uiReachable chromeEnv sampleFolders w /\
  selectedFolderId (card w) = Some "f2" /\
  listed sampleFolders (selectedFolderId (card w)).
Proof.
  assert (uiReachable chromeEnv sampleFolders
            (run chromeEnv [ClickStartEditor; ChangeContent "nota"; SelectFolder "f2"]
               initialWorld).1) as Hr.
  { apply (uiReachable_step chromeEnv sampleFolders
             (run chromeEnv [ClickStartEditor; ChangeContent "nota"] initialWorld).1
             (SelectFolder "f2")); [|by vm_compute].
    apply (uiReachable_step chromeEnv sampleFolders
             (run chromeEnv [ClickStartEditor] initialWorld).1
             (ChangeContent "nota")); [|reflexivity].
    apply (uiReachable_step chromeEnv sampleFolders initialWorld
             ClickStartEditor); [|reflexivity].
    apply uiReachable_initial. }
  destruct (selected_folder_is_listed chromeEnv sampleFolders _ Hr) as (Hl & _).
  split; [exact Hr|]. split; [reflexivity|exact Hl].
Defined.

(** X19: the [select] and the state agree.  After the handler has stored an
    option value, the [select] shows that value; and in every world the loop
    can reach, choosing the value the [select] already shows changes
    nothing. *)
Theorem select_shows_what_was_chosen
    (env : Env) (folders : option (list Folder.t)) (w : World) (v : string) :
  selectValue (render folders (card (step env w (SelectFolder v)))) = v /\
  (reachable env w ->
   step env w (SelectFolder (selectValue (render folders (card w)))) = w).
Proof.
  split.
  - unfold_handlers. simpl. unfold shownFolder.
    destruct (decide (v = "")) as [->|Hv]; [done|]. by rewrite decide_False.
  - intros Hr. apply reachable_consistent in Hr as [_ _ _ Hf].
    unfold_handlers. simpl. unfold shownFolder.
    destruct (selectedFolderId (card w)) as [x|] eqn:Hsel.
    + destruct (decide (x = "")) as [->|Hx]; [done|].
      rewrite decide_False by done.
      rewrite <- Hsel. by rewrite card_eta, world_eta.
    + rewrite decide_True by done.
      rewrite <- Hsel. by rewrite card_eta, world_eta.
Qed.

Lemma select_shows_what_was_chosen_witness :
  let w := (run chromeEnv [ClickStartEditor; SelectFolder "f1"] initialWorld).1 in
  reachable chromeEnv w /\
  selectValue (render sampleFolders (card w)) = "f1" /\
  step chromeEnv w (SelectFolder (selectValue (render sampleFolders (card w)))) = w.
Proof.
  assert (reachable chromeEnv
            (run chromeEnv [ClickStartEditor; SelectFolder "f1"] initialWorld).1) as Hr
    by (do 2 apply reachable_step; apply reachable_initial).
  destruct (select_shows_what_was_chosen chromeEnv sampleFolders
              (run chromeEnv [ClickStartEditor; SelectFolder "f1"] initialWorld).1 "f1")
    as (_ & Hsame).
  split; [exact Hr|]. split; [reflexivity|exact (Hsame Hr)].
Defined.

(** ** Saving twice *)

(** X20: a second click on "save" right after a first one does nothing: the
    first leaves the content empty, so the second calls no callback and
    leaves the world of the first. *)
Theorem save_twice_creates_one_note (env : Env) (w : World) :
  step env (step env w ClickSave) ClickSave = step env w ClickSave /\
  callbackCalls (effects env (step env w ClickSave) ClickSave) = [] /\
  length (callbackCalls (run env [ClickSave; ClickSave] w).2) <= 1.
Proof.
  assert (content (card (step env w ClickSave)) = "") as Hempty.
  { unfold step, exec, dispatch.
    destruct (decide (content (card w) = "")) as [He|He].
    - by rewrite handleSaveNote_empty.
    - by rewrite handleSaveNote_filled. }
  assert (callbackCalls (effects env (step env w ClickSave) ClickSave) = []) as Hnone.
  { unfold effects, log, dispatch. by rewrite handleSaveNote_empty. }
  split_and!; [|done|].
  - unfold step at 1, exec, dispatch. by rewrite handleSaveNote_empty.
  - rewrite !run_cons_log. simpl run. cbn [snd]. rewrite app_nil_r.
    unfold callbackCalls in *. rewrite filter_app, length_app, Hnone. simpl.
    pose proof (callbackCalls_step env w ClickSave) as Hstep.
    unfold callbackCalls in Hstep. simpl in Hstep. lia.
Qed.

(** ** The draft across a restart *)

(** X21: an end the user did not ask for restarts recognition once and leaves
    the draft to the next result.  With the flag up, the [end] event of a
    delivering object sets one 200 ms timer; the timer makes and starts one
    new object, which the ref holds and which delivers; content, folder and
    onboarding are those before the end.  The first result the new object
    delivers then becomes the content, whatever the content was: nothing of
    the earlier text is carried over. *)
Theorem restart_keeps_draft_until_next_result
    (env : Env) (w : World) (h : handle) (results : list Result) (text : string) :
  isRecordingRef (card w) = true ->
  delivering w h = true ->
  transcription results = Some text ->
  let w2 := step env (step env w (RecognitionEnd h)) TimerFires in
  let n := length (recognitions w) in
  effects env w (RecognitionEnd h) = [SetTimeout 200] /\
  restarts (effects env (step env w (RecognitionEnd h)) TimerFires) =
    [RecognitionNew n; RecognitionStart n] /\
  listening w2 /\
  speechRecognitionRef (card w2) = Some n /\
  draftOf w2 = draftOf w /\
  delivering w2 n = true /\
  content (card (step env w2 (RecognitionResult n results))) = text /\
  listening (step env w2 (RecognitionResult n results)).
Proof.
  intros Hflag Hd Ht. cbv zeta.
  destruct (unexpected_end_restarts_once env w h Hflag Hd)
    as (Hlog & _ & _ & _ & Hre & _ & _ & Hlisten & _ & Href & Hnew & Hc & Hf & Ho).
  assert (delivering (step env (step env w (RecognitionEnd h)) TimerFires)
            (length (recognitions w)) = true) as Hd2.
  { unfold delivering. by rewrite Hnew. }
  split_and!; try done.
  - unfold draftOf. by rewrite Hc, Hf, Ho.
  - by rewrite (result_world env _ _ results text Hd2 Ht).
  - rewrite (result_world env _ _ results text Hd2 Ht). exact Hlisten.
Qed.

Lemma restart_keeps_draft_until_next_result_witness :
  let w := (run chromeEnv
              [ClickStartRecording; RecognitionResult 0 [final "ola "; interim "mundo"]]
              initialWorld).1 in
  let w2 := step chromeEnv (step chromeEnv w (RecognitionEnd 0)) TimerFires in
  isRecordingRef (card w) = true /\
  delivering w 0 = true /\
  transcription [interim "outra"] = Some "outra" /\
  draftOf w2 = ("ola mundo", None, false) /\
  content (card (step chromeEnv w2 (RecognitionResult 1 [interim "outra"]))) = "outra".
Proof.
  destruct (restart_keeps_draft_until_next_result chromeEnv
              (run chromeEnv
                 [ClickStartRecording;
                  RecognitionResult 0 [final "ola "; interim "mundo"]]
                 initialWorld).1 0 [interim "outra"] "outra"
              eq_refl eq_refl eq_refl)
    as (_ & _ & _ & _ & Hdraft & _ & Hc & _).
  split; [reflexivity|]. split; [reflexivity|]. split; [reflexivity|].
  split; [exact Hdraft|exact Hc].
Defined.
